(** * The request pipeline of server.js

    A shallow embedding of the Express application assembled in
    [server.js]: the origin callback handed to [cors], the body-size
    limits, the [multer] upload configuration, the ordered middleware
    stack, the error-handling middleware and the 404 handler.

    JavaScript values are modelled the way the code consumes them: a value
    that may be [undefined] is an [option], strings are [string], sizes and
    times are [Z].  Packages the file merely configures ([cors],
    [body-parser], [multer]) are modelled by the behaviour the configuration
    selects; collaborators that live in other files of the repository
    (the security middleware, the route groups) are parameters. *)

From Stdlib Require Import ZArith List String Ascii Bool Lia.
From stdpp Require Import gmap strings.
Import ListNotations.

Local Open Scope string_scope.
Local Open Scope Z_scope.

(** ** JavaScript strings and truthiness *)

Module Js.

(** [s.includes(needle)]. *)
Fixpoint includes (needle s : string) : bool :=
  String.prefix needle s ||
  match s with
  | EmptyString => false
  | String _ rest => includes needle rest
  end.

(** Truthiness of a value that is either [undefined] or a string: the
    empty string is falsy. *)
Definition truthy (v : option string) : bool :=
  match v with
  | Some (String _ _) => true
  | _ => false
  end.

(** [a === b] on values that are [undefined] or strings. *)
Definition strict_eq (a b : option string) : bool :=
  match a, b with
  | None, None => true
  | Some x, Some y => String.eqb x y
  | _, _ => false
  end.

(** [xs.indexOf(x) !== -1] and [xs.includes(x)] on an array of strings. *)
Definition array_has (xs : list string) (x : string) : bool :=
  existsb (String.eqb x) xs.

(** [s.toLowerCase()] on ASCII letters. *)
Definition lowerAscii (c : ascii) : ascii :=
  let n := nat_of_ascii c in
  if (65 <=? n)%nat && (n <=? 90)%nat then ascii_of_nat (n + 32) else c.

Fixpoint lower (s : string) : string :=
  match s with
  | EmptyString => EmptyString
  | String c rest => String (lowerAscii c) (lower rest)
  end.

(** [xs.join(sep)] for a one-character separator. *)
Fixpoint join (sep : ascii) (xs : list string) : string :=
  match xs with
  | [] => EmptyString
  | [x] => x
  | x :: rest => x ++ String sep (join sep rest)
  end.

(** How many times the character [c] occurs in [s]. *)
Fixpoint occurrences (c : ascii) (s : string) : nat :=
  match s with
  | EmptyString => 0%nat
  | String a rest =>
      if Ascii.eqb a c then S (occurrences c rest) else occurrences c rest
  end.

(** [v || d] for a value that is [undefined] or a string. *)
Definition orElse (v : option string) (d : string) : string :=
  match v with
  | Some (String c rest) => String c rest
  | _ => d
  end.

End Js.

(** ** Responses *)

Module Http.

(** The body handed to [res.json], [res.send] or [res.end]. *)
Inductive Body :=
| Json (fields : list (string * string))
| Text (t : string)
| Empty.

(** [JSON.stringify] drops the properties whose value is [undefined]. *)
Fixpoint stringify (props : list (string * option string))
  : list (string * string) :=
  match props with
  | [] => []
  | (k, Some v) :: rest => (k, v) :: stringify rest
  | (_, None) :: rest => stringify rest
  end.

Definition json (props : list (string * option string)) : Body :=
  Json (stringify props).

(** The value of property [k] in a JSON body, if the body has it. *)
Fixpoint assoc (k : string) (fields : list (string * string)) : option string :=
  match fields with
  | [] => None
  | (k', v) :: rest => if String.eqb k k' then Some v else assoc k rest
  end.

Definition field (k : string) (b : Body) : option string :=
  match b with
  | Json fields => assoc k fields
  | _ => None
  end.

Definition Header : Type := string * string.

(** [res.setHeader(k, v)] replaces an earlier value of the same name. *)
Definition setHeader (k v : string) (hs : list Header) : list Header :=
  (k, v) :: List.filter (fun h => negb (String.eqb k (fst h))) hs.

Definition setHeaders (new : list Header) (hs : list Header) : list Header :=
  fold_left (fun acc h => setHeader (fst h) (snd h) acc) new hs.

Definition hasHeader (k : string) (hs : list Header) : bool :=
  existsb (fun h => String.eqb k (fst h)) hs.

Record Response := {
  status : Z;
  headers : list Header;
  body : Body
}.

End Http.

(** ** Failures handed to [next(err)] *)

Module Failure.

(** What the error-handling middleware reads from the value it is given:
    [error instanceof multer.MulterError], [error.code], [error.message]. *)
Record t := {
  isMulterError : bool;
  code : option string;
  message : option string
}.

(** [new Error(msg)]. *)
Definition Error (msg : string) : t :=
  {| isMulterError := false; code := None; message := Some msg |}.

(** [new multer.MulterError(code)]: multer fills in the message of the code. *)
Definition MulterError (c msg : string) : t :=
  {| isMulterError := true; code := Some c; message := Some msg |}.

End Failure.

(** ** The error-handling middleware (server.js lines 96-113) *)

Module ErrorTranslator.
Import Http.

Definition fileTooLargeText := "File too large. Maximum size is 10MB.".
Definition unexpectedText := "An unexpected error occurred. Please try again.".

(** [process.env.NODE_ENV === 'development']. *)
Definition isDevelopment (nodeEnv : option string) : bool :=
  Js.strict_eq nodeEnv (Some "development").

(** Status and body the handler sends for [error]. *)
Definition errorHandler (nodeEnv : option string) (error : Failure.t)
  : Z * Body :=
  if Failure.isMulterError error
     && Js.strict_eq (Failure.code error) (Some "LIMIT_FILE_SIZE")
  then (400, json [("error", Some fileTooLargeText)])
  else
    if Js.truthy (Failure.message error)
       && match Failure.message error with
          | Some m => Js.includes "Invalid file type" m
          | None => false
          end
    then (400, json [("error", Failure.message error)])
    else (500, json [("error", Some unexpectedText);
                     ("details", if isDevelopment nodeEnv
                                 then Failure.message error
                                 else None)]).

(** The three classes of the handler, tried in this order. *)
Inductive Class := UploadSize | InvalidFileType | Generic.

Definition isUploadSize (error : Failure.t) : bool :=
  Failure.isMulterError error
  && Js.strict_eq (Failure.code error) (Some "LIMIT_FILE_SIZE").

Definition mentionsInvalidFileType (error : Failure.t) : bool :=
  match Failure.message error with
  | Some m => Js.includes "Invalid file type" m
  | None => false
  end.

Definition classify (error : Failure.t) : Class :=
  if isUploadSize error then UploadSize
  else if mentionsInvalidFileType error then InvalidFileType
  else Generic.

End ErrorTranslator.

(** ** The allowed origins and the origin callback (server.js lines 25-41) *)

Module Cors.

(** ASCII white space, as removed by [String.prototype.trim]. *)
Definition isSpace (c : ascii) : bool :=
  match nat_of_ascii c with
  | 9%nat | 10%nat | 11%nat | 12%nat | 13%nat | 32%nat => true
  | _ => false
  end.

Fixpoint trimStart (s : string) : string :=
  match s with
  | String c rest => if isSpace c then trimStart rest else s
  | EmptyString => EmptyString
  end.

Fixpoint trimEnd (s : string) : string :=
  match s with
  | EmptyString => EmptyString
  | String c rest =>
      match trimEnd rest with
      | EmptyString => if isSpace c then EmptyString else String c EmptyString
      | kept => String c kept
      end
  end.

Definition trim (s : string) : string := trimEnd (trimStart s).

(** [s.split(sep)] for a one-character separator. *)
Fixpoint split (sep : ascii) (s : string) : list string :=
  match s with
  | EmptyString => [EmptyString]
  | String c rest =>
      if Ascii.eqb c sep then EmptyString :: split sep rest
      else match split sep rest with
           | piece :: pieces => String c piece :: pieces
           | [] => [String c EmptyString]
           end
  end.

(** [process.env.CORS_ORIGIN ? CORS_ORIGIN.split(',').map(trim)
                             : ['http://localhost:3000']]. *)
Definition allowedOrigins (corsOrigin : option string) : list string :=
  match corsOrigin with
  | Some (String c rest) => map trim (split "," (String c rest))
  | _ => ["http://localhost:3000"]
  end.

Definition notAllowed : Failure.t := Failure.Error "Not allowed by CORS".

(** The [origin] function of the options: [inr true] is
    [callback(null, true)], [inl e] is [callback(e)].  [origin] is
    [req.headers.origin]. *)
Definition originCallback (allowed : list string) (origin : option string)
  : Failure.t + bool :=
  if negb (Js.truthy origin) then inr true
  else
    match origin with
    | Some o => if Js.array_has allowed o then inr true else inl notAllowed
    | None => inr true
    end.

(** Headers the [cors] package sets once the callback allowed the request,
    for the options [{origin: <function>, credentials: true}]: the request
    origin is reflected when there is one, and credentials are announced. *)
Definition corsHeaders (origin : option string) : list Http.Header :=
  (if Js.truthy origin
   then match origin with
        | Some o => [("Access-Control-Allow-Origin", o)]
        | None => []
        end
   else [])
  ++ [("Vary", "Origin"); ("Access-Control-Allow-Credentials", "true")].

Definition preflightHeaders : list Http.Header :=
  [("Access-Control-Allow-Methods", "GET,HEAD,PUT,PATCH,POST,DELETE");
   ("Content-Length", "0")].

(** The names of the headers the package may set. *)
Definition headerNames : list string :=
  ["Access-Control-Allow-Origin"; "Vary"; "Access-Control-Allow-Credentials";
   "Access-Control-Allow-Methods"; "Content-Length"].

End Cors.

(** ** Body size limits (server.js lines 51-52) *)

Module BodyParser.

Definition digit (c : ascii) : option Z :=
  let n := Z.of_nat (nat_of_ascii c) in
  if (48 <=? n) && (n <=? 57) then Some (n - 48) else None.

Fixpoint number (acc : Z) (s : string) : Z * string :=
  match s with
  | String c rest =>
      match digit c with
      | Some d => number (10 * acc + d) rest
      | None => (acc, s)
      end
  | EmptyString => (acc, s)
  end.

(** The units of the [bytes] package are powers of 1024. *)
Definition unit (u : string) : option Z :=
  let u := Js.lower u in
  if String.eqb u "b" then Some 1
  else if String.eqb u "kb" then Some 1024
  else if String.eqb u "mb" then Some (1024 * 1024)
  else if String.eqb u "gb" then Some (1024 * 1024 * 1024)
  else None.

(** [bytes.parse] on a whole number followed by a unit, as in ['10mb']. *)
Definition bytes (s : string) : option Z :=
  match s with
  | EmptyString => None
  | String c _ =>
      match digit c with
      | None => None
      | Some _ =>
          let (n, u) := number 0 s in
          option_map (Z.mul n) (unit u)
      end
  end.

(** The [limit] option of [express.json] and [express.urlencoded]. *)
Definition limit : option Z := bytes "10mb".

(** body-parser refuses a body when its length is greater than the limit. *)
Definition tooLarge (length : Z) : bool :=
  match limit with
  | Some l => length >? l
  | None => false
  end.

(** The failure body-parser raises for an over-long body. *)
Definition entityTooLarge : Failure.t := Failure.Error "request entity too large".

End BodyParser.

(** ** The upload configuration (server.js lines 55-74) *)

Module Upload.

(** server.js builds the [upload] middleware and mounts it on no path of
    its own stack; the module describes what the middleware does with a
    file part wherever it is put in front of a handler.

    What multer knows about a file part: [file.mimetype] and the number of
    bytes of its content. *)
Record File := {
  mimetype : string;
  size : Z
}.

Definition allowedTypes : list string :=
  ["text/plain"; "text/markdown"; "application/json"; "text/csv"].

Definition invalidTypeText :=
  "Invalid file type. Only .txt, .md, .json, and .csv files are allowed.".

(** [limits.fileSize]. *)
Definition fileSize : Z := 10 * 1024 * 1024.

(** [fileFilter]: [inr true] is [cb(null, true)], [inl e] is [cb(e)]. *)
Definition fileFilter (file : File) : Failure.t + bool :=
  if Js.array_has allowedTypes (mimetype file) then inr true
  else inl (Failure.Error invalidTypeText).

Definition limitFileSize : Failure.t :=
  Failure.MulterError "LIMIT_FILE_SIZE" "File too large".

(** Whether the content of a part trips [limits.fileSize].  A part longer
    than the limit always does.  A part of exactly the limit does under the
    multipart parser of the later multer releases and does not under the
    earlier one; server.js does not pin the release, so [atLimit] says
    which of the two is installed. *)
Definition tripsLimit (atLimit : bool) (n : Z) : bool :=
  if atLimit then n >=? fileSize else n >? fileSize.

(** What the [upload] middleware does with one file part.  multer calls
    [fileFilter] when the part's headers arrive; only a part the filter
    kept is buffered by the memory storage, and the size limit fires while
    it is being buffered.  [inr (Some f)]: the file is attached to the
    request; [inr None]: the part is skipped; [inl e]: [next(e)]. *)
Definition upload (atLimit : bool) (file : File) : Failure.t + option File :=
  match fileFilter file with
  | inl e => inl e
  | inr false => inr None
  | inr true => if tripsLimit atLimit (size file) then inl limitFileSize
                else inr (Some file)
  end.

End Upload.

(** ** Rate limiting *)

Module RateLimit.

(** The limiters are made by [SecurityMiddleware.createRateLimiters], in
    [./middleware/security]; this module follows the description the
    specification gives of them. *)

(** The route classes that have a limiter of their own. *)
Inductive RouteClass := General | UploadClass | HeavyApi.

#[global] Instance RouteClass_eq_dec : EqDecision RouteClass.
Proof. solve_decision. Defined.

#[global] Instance RouteClass_countable : Countable RouteClass.
Proof.
  refine (inj_countable'
            (fun c => match c with General => 0%nat | UploadClass => 1%nat
                               | HeavyApi => 2%nat end)
            (fun n => match n with 0%nat => General | 1%nat => UploadClass
                               | _ => HeavyApi end) _).
  intros []; reflexivity.
Defined.

Record Config := {
  windowMs : Z;
  maxCount : Z
}.

(** A bucket: the counter and the time at which its window ends. *)
Record Bucket := {
  count : Z;
  resetAt : Z
}.

Inductive Verdict := Allow | Reject.

Definition Key : Type := RouteClass * string.

(** The bucket a request arriving at [now] counts against: the stored one
    while its window lasts, a fresh one once the window has elapsed. *)
Definition current (cfg : Config) (stored : option Bucket) (now : Z) : Bucket :=
  match stored with
  | Some b => if now <? resetAt b then b
              else {| count := 0; resetAt := now + windowMs cfg |}
  | None => {| count := 0; resetAt := now + windowMs cfg |}
  end.

(** Modelled from the spec: the limiters come from
    [SecurityMiddleware.createRateLimiters], which is not part of the
    sources at hand.  This is the specification's [admit(routeClass,
    clientId)].  One fixed counting window per (route class, client):
    a request is let through while the count of its window is below the
    maximum of its class, and the bucket is reset when the window has
    elapsed. *)
Definition admission (cfg : RouteClass -> Config)
    (buckets : gmap Key Bucket) (k : Key) (now : Z)
  : Verdict * gmap Key Bucket :=
  let b := current (cfg (fst k)) (buckets !! k) now in
  if count b <? maxCount (cfg (fst k))
  then (Allow, <[k := {| count := count b + 1; resetAt := resetAt b |}]> buckets)
  else (Reject, <[k := b]> buckets).

(** A run of requests, each with its key and arrival time. *)
Fixpoint serve (cfg : RouteClass -> Config) (buckets : gmap Key Bucket)
    (reqs : list (Key * Z)) : list (Key * Verdict) * gmap Key Bucket :=
  match reqs with
  | [] => ([], buckets)
  | (k, now) :: rest =>
      let (v, buckets') := admission cfg buckets k now in
      let (vs, final) := serve cfg buckets' rest in
      ((k, v) :: vs, final)
  end.

(** The verdicts a run gave to the requests of key [k], in order. *)
Definition verdictsOf (k : Key) (log : list (Key * Verdict)) : list Verdict :=
  map snd (List.filter (fun e => bool_decide (fst e = k)) log).

(** The arrival times of the requests of key [k], in order. *)
Definition timesOf (k : Key) (reqs : list (Key * Z)) : list Z :=
  map snd (List.filter (fun e => bool_decide (fst e = k)) reqs).

End RateLimit.

(** ** Requests and path matching *)

Module Express.

Inductive Method := GET | HEAD | POST | PUT | PATCH | DELETE | OPTIONS.

#[global] Instance Method_eq_dec : EqDecision Method.
Proof. solve_decision. Defined.

(** What the body parsers look at in the [Content-Type] header. *)
Inductive ContentType := NoBody | JsonBody | UrlencodedBody | OtherBody.

#[global] Instance ContentType_eq_dec : EqDecision ContentType.
Proof. solve_decision. Defined.

Record Request := {
  method : Method;
  path : string;                 (* req.path *)
  origin : option string;        (* req.headers.origin *)
  ip : string;                   (* req.ip *)
  time : Z;                      (* arrival time, in milliseconds *)
  contentType : ContentType;
  bodyLength : Z;                (* bytes of the body *)
  bodyError : option string      (* message of the parser's failure on the
                                    content, if it fails *)
}.

(** Removes the trailing slash of a pattern: Express matches ['/api/'] and
    ['/api'] alike (routing is not strict). *)
Fixpoint stripSlash (p : string) : string :=
  match p with
  | EmptyString => EmptyString
  | String c EmptyString => if Ascii.eqb c "/" then EmptyString else p
  | String c rest => String c (stripSlash rest)
  end.

(** [p] is a prefix of [path], compared without regard to case, and ends
    at the end of [path] or in front of a slash. *)
Fixpoint prefixAtBoundary (p path : string) : bool :=
  match p, path with
  | EmptyString, EmptyString => true
  | EmptyString, String c _ => Ascii.eqb c "/"
  | String a p', String b path' =>
      Ascii.eqb (Js.lowerAscii a) (Js.lowerAscii b) && prefixAtBoundary p' path'
  | String _ _, EmptyString => false
  end.

(** [app.use(p, ...)] runs for the paths under [p]. *)
Definition mounted (p path : string) : bool :=
  prefixAtBoundary (stripSlash p) path.

(** [app.get(p, ...)] runs for [p] itself, with or without a trailing
    slash, compared without regard to case. *)
Definition atPath (p path : string) : bool :=
  let p0 := Js.lower (stripSlash p) in
  String.eqb (Js.lower path) p0 || String.eqb (Js.lower path) (p0 ++ "/").

(** [app.get] also serves HEAD requests. *)
Definition isGet (m : Method) : bool :=
  bool_decide (m = GET) || bool_decide (m = HEAD).

End Express.

(** ** The middleware stack *)

Module Stack.
Import Http Express.

(** The route groups mounted by server.js lines 77-83. *)
Inductive RouteGroup :=
| UploadRoutes | SummarizeRoutes | ShareRoutes | PdfRoutes
| TemplatesRoutes | VersionHistoryRoutes | ExportRoutes.

#[global] Instance RouteGroup_eq_dec : EqDecision RouteGroup.
Proof. solve_decision. Defined.

Definition routeGroups : list RouteGroup :=
  [UploadRoutes; SummarizeRoutes; ShareRoutes; PdfRoutes;
   TemplatesRoutes; VersionHistoryRoutes; ExportRoutes].

Definition mountPath (g : RouteGroup) : string :=
  match g with
  | UploadRoutes => "/api/upload"
  | SummarizeRoutes => "/api/summarize"
  | ShareRoutes => "/api/share"
  | PdfRoutes => "/api/pdf"
  | TemplatesRoutes => "/api/templates"
  | VersionHistoryRoutes => "/api/version-history"
  | ExportRoutes => "/api/export"
  end.

(** The layers of the application, in the order server.js registers them;
    [FinalHandler] is what Express does when the stack is exhausted. *)
Inductive Label :=
| Helmet | SecurityHeaders | CorsLayer
| GeneralLimiter | UploadLimiter | SummarizeLimiter | PdfLimiter
| JsonParser | UrlencodedParser
| Route (g : RouteGroup)
| Health | Root
| ErrorHandler | NotFound
| FinalHandler.

#[global] Instance Label_eq_dec : EqDecision Label.
Proof. solve_decision. Defined.

(** What a route group does with a request: it replies, calls [next()],
    or calls [next(err)]. *)
Inductive HandlerResult :=
| Handled (status : Z) (body : Body)
| PassOn
| Failed (e : Failure.t).

(** What a limiter does with a request: it calls [next()] or replies
    itself with its rate-limit error. *)
Inductive LimiterVerdict :=
| Pass
| Limited (status : Z) (body : Body).

Section Dispatch.

(** The state the limiters keep between requests. *)
Variable LimiterState : Type.

(** The response under construction and the state of the limiters. *)
Record Ctx := {
  resHeaders : list Header;
  limiters : LimiterState
}.

Inductive Outcome :=
| Continue (c : Ctx)                        (* next() *)
| Throw (c : Ctx) (e : Failure.t)           (* next(err) *)
| Reply (c : Ctx) (status : Z) (b : Body).  (* the response is sent *)

Inductive Layer :=
| Use (l : Label) (applies : Request -> bool) (h : Request -> Ctx -> Outcome)
| UseErr (l : Label) (h : Failure.t -> Request -> Ctx -> Outcome).

Definition label (layer : Layer) : Label :=
  match layer with
  | Use l _ _ => l
  | UseErr l _ => l
  end.

(** The response under construction that an outcome leaves behind. *)
Definition ctxOf (o : Outcome) : Ctx :=
  match o with
  | Continue c => c
  | Throw c _ => c
  | Reply c _ _ => c
  end.

(** A layer keeps [P] when the headers it leaves satisfy [P] whenever the
    headers it found did. *)
Definition keeps (P : list Header -> Prop) (layer : Layer) : Prop :=
  match layer with
  | Use _ _ h => forall req c, P (resHeaders c) -> P (resHeaders (ctxOf (h req c)))
  | UseErr _ h =>
      forall e req c, P (resHeaders c) -> P (resHeaders (ctxOf (h e req c)))
  end.

(** An ordinary layer, as opposed to an error handler. *)
Definition isUse (layer : Layer) : bool :=
  match layer with
  | Use _ _ _ => true
  | UseErr _ _ => false
  end.

(** A layer leaves the state of the limiters as it found it. *)
Definition keepsLimiters (layer : Layer) : Prop :=
  match layer with
  | Use _ _ h => forall req c, limiters (ctxOf (h req c)) = limiters c
  | UseErr _ h => forall e req c, limiters (ctxOf (h e req c)) = limiters c
  end.

(** Two outcomes agree but for the state of the limiters. *)
Definition sameOutcome (o o' : Outcome) : Prop :=
  match o, o' with
  | Continue c, Continue c' => resHeaders c = resHeaders c'
  | Throw c e, Throw c' e' => resHeaders c = resHeaders c' /\ e = e'
  | Reply c status b, Reply c' status' b' =>
      resHeaders c = resHeaders c' /\ status = status' /\ b = b'
  | _, _ => False
  end.

(** A layer does not look at the state of the limiters. *)
Definition ignoresLimiters (layer : Layer) : Prop :=
  match layer with
  | Use _ _ h =>
      forall req c c',
        resHeaders c = resHeaders c' -> sameOutcome (h req c) (h req c')
  | UseErr _ h =>
      forall e req c c',
        resHeaders c = resHeaders c' -> sameOutcome (h e req c) (h e req c')
  end.

(** Whatever the layer replies to [req] is a reply that [R] permits to a
    layer of its name. *)
Definition answers (R : Label -> Z -> Body -> Prop) (req : Request)
    (layer : Layer) : Prop :=
  match layer with
  | Use l applies h =>
      forall c c' status b,
        applies req = true -> h req c = Reply c' status b -> R l status b
  | UseErr l h =>
      forall e c c' status b, h e req c = Reply c' status b -> R l status b
  end.

(** The layer runs for [req] when no error is pending. *)
Definition appliesTo (req : Request) (layer : Layer) : bool :=
  match layer with
  | Use _ applies _ => applies req
  | UseErr _ _ => false
  end.

Record Result := {
  response : Response;
  repliedBy : Label;          (* the layer that sent the response *)
  visited : list Label;       (* the layers that ran, in order *)
  finalState : LimiterState
}.

Definition finish (l : Label) (c : Ctx) (status : Z) (b : Body) : Result :=
  {| response := {| Http.status := status; headers := resHeaders c; body := b |};
     repliedBy := l;
     visited := [l];
     finalState := limiters c |}.

Definition visit (l : Label) (r : Result) : Result :=
  {| response := response r;
     repliedBy := repliedBy r;
     visited := l :: visited r;
     finalState := finalState r |}.

(** Express's default when no layer replied: 404, or 500 for an error. *)
Definition finalhandler (pending : option Failure.t) (c : Ctx) : Result :=
  match pending with
  | None => finish FinalHandler c 404 (Text "Not Found")
  | Some _ => finish FinalHandler c 500 (Text "Internal Server Error")
  end.

Definition continueWith (l : Label) (o : Outcome)
    (k : option Failure.t -> Ctx -> Result) : Result :=
  match o with
  | Continue c => visit l (k None c)
  | Throw c e => visit l (k (Some e) c)
  | Reply c status b => finish l c status b
  end.

(** Express walks the stack in order.  Without a pending error it runs the
    ordinary layers whose path matches and skips the error handlers; with
    a pending error it runs the error handlers only. *)
Fixpoint dispatch (stack : list Layer) (pending : option Failure.t)
    (req : Request) (c : Ctx) : Result :=
  match stack with
  | [] => finalhandler pending c
  | Use l applies h :: rest =>
      match pending with
      | Some _ => dispatch rest pending req c
      | None =>
          if applies req
          then continueWith l (h req c) (fun p c' => dispatch rest p req c')
          else dispatch rest None req c
      end
  | UseErr l h :: rest =>
      match pending with
      | None => dispatch rest None req c
      | Some e =>
          continueWith l (h e req c) (fun p c' => dispatch rest p req c')
      end
  end.

(** *** The layers of server.js *)

(** [process.env.CORS_ORIGIN] and [process.env.NODE_ENV]. *)
Variable corsOrigin : option string.
Variable nodeEnv : option string.

(** The headers set by [SecurityMiddleware.configureHelmet()] and by
    [SecurityMiddleware.createSecurityHeaders()]. *)
Variable helmetHeaders : list Header.
Variable securityHeaders : list Header.

(** The limiters returned by [SecurityMiddleware.createRateLimiters()]. *)
Variable generalLimiter uploadLimiter apiLimiter :
  LimiterState -> Request -> LimiterVerdict * LimiterState.

(** The route groups required from [./routes/...]. *)
Variable routes : RouteGroup -> Request -> HandlerResult.

(** [new Date().toISOString()] at a given time. *)
Variable toISOString : Z -> string.

Definition always (_ : Request) : bool := true.

Definition withHeaders (new : list Header) (c : Ctx) : Ctx :=
  {| resHeaders := setHeaders new (resHeaders c); limiters := limiters c |}.

(** Modelled from the spec: [./middleware/security] is not part of the
    sources at hand.  Each of its two header middlewares adds a fixed set
    of protective headers to the response and hands the request on. *)
Definition headerLayer (fixed : list Header) (req : Request) (c : Ctx)
  : Outcome :=
  Continue (withHeaders fixed c).

(** [cors({origin, credentials: true})]: a refusal of the origin callback
    goes to [next(err)]; an OPTIONS request is answered by the package
    itself with status 204; any other request goes on with the CORS
    headers set. *)
Definition corsLayer (req : Request) (c : Ctx) : Outcome :=
  match Cors.originCallback (Cors.allowedOrigins corsOrigin) (origin req) with
  | inl e => Throw c e
  | inr false => Continue c
  | inr true =>
      let c' := withHeaders (Cors.corsHeaders (origin req)) c in
      if bool_decide (method req = OPTIONS)
      then Reply (withHeaders Cors.preflightHeaders c') 204 Empty
      else Continue c'
  end.

Definition limiterLayer
    (limiter : LimiterState -> Request -> LimiterVerdict * LimiterState)
    (req : Request) (c : Ctx) : Outcome :=
  let (v, s) := limiter (limiters c) req in
  let c' := {| resHeaders := resHeaders c; limiters := s |} in
  match v with
  | Pass => Continue c'
  | Limited status b => Reply c' status b
  end.

(** [express.json] and [express.urlencoded] with [limit: '10mb']: each
    reads the bodies of its own content type, refuses the over-long ones
    and hands on the failure of its parser. *)
Definition bodyFailure (req : Request) : option Failure.t :=
  if BodyParser.tooLarge (bodyLength req) then Some BodyParser.entityTooLarge
  else option_map Failure.Error (bodyError req).

Definition parserLayer (accepts : ContentType) (req : Request) (c : Ctx)
  : Outcome :=
  if bool_decide (contentType req = accepts)
  then match bodyFailure req with
       | Some e => Throw c e
       | None => Continue c
       end
  else Continue c.

Definition routeLayer (g : RouteGroup) (req : Request) (c : Ctx) : Outcome :=
  match routes g req with
  | Handled status b => Reply c status b
  | PassOn => Continue c
  | Failed e => Throw c e
  end.

Definition isHealth (req : Request) : bool :=
  isGet (method req) && atPath "/api/health" (path req).

Definition isRoot (req : Request) : bool :=
  isGet (method req) && atPath "/" (path req).

Definition health (req : Request) (c : Ctx) : Outcome :=
  Reply c 200 (json [("status", Some "OK");
                     ("timestamp", Some (toISOString (time req)))]).

Definition root (req : Request) (c : Ctx) : Outcome :=
  Reply c 200 (Text "API is running").

Definition errorLayer (e : Failure.t) (req : Request) (c : Ctx) : Outcome :=
  let (status, b) := ErrorTranslator.errorHandler nodeEnv e in
  Reply c status b.

Definition notFound (req : Request) (c : Ctx) : Outcome :=
  Reply c 404 (json [("error", Some "Endpoint not found")]).

Definition mountRoute (g : RouteGroup) : Layer :=
  Use (Route g) (fun req => mounted (mountPath g) (path req)) (routeLayer g).

(** The stack, in the order of the [app.use] and [app.get] calls, block
    by block as server.js lays them out. *)

(** Lines 21-41: the security middleware and CORS. *)
Definition securityLayers : list Layer :=
  [ Use Helmet always (headerLayer helmetHeaders);
    Use SecurityHeaders always (headerLayer securityHeaders);
    Use CorsLayer always corsLayer ].

(** Lines 44-48: rate limiting. *)
Definition limiterLayers : list Layer :=
  [ Use GeneralLimiter (fun req => mounted "/api/" (path req))
        (limiterLayer generalLimiter);
    Use UploadLimiter (fun req => mounted "/api/upload" (path req))
        (limiterLayer uploadLimiter);
    Use SummarizeLimiter (fun req => mounted "/api/summarize" (path req))
        (limiterLayer apiLimiter);
    Use PdfLimiter (fun req => mounted "/api/pdf" (path req))
        (limiterLayer apiLimiter) ].

(** Lines 51-52: body parsing. *)
Definition parserLayers : list Layer :=
  [ Use JsonParser always (parserLayer JsonBody);
    Use UrlencodedParser always (parserLayer UrlencodedBody) ].

(** Lines 77-83: the route groups. *)
Definition routeLayers : list Layer :=
  [ mountRoute UploadRoutes;
    mountRoute SummarizeRoutes;
    mountRoute ShareRoutes;
    mountRoute PdfRoutes;
    mountRoute TemplatesRoutes;
    mountRoute VersionHistoryRoutes;
    mountRoute ExportRoutes ].

(** Lines 86-93: the health check and the root endpoint. *)
Definition livenessLayers : list Layer :=
  [ Use Health isHealth health;
    Use Root isRoot root ].

(** Lines 96-118: the error handler, then the 404 handler. *)
Definition terminalLayers : list Layer :=
  [ UseErr ErrorHandler errorLayer;
    Use NotFound always notFound ].

Definition app : list Layer :=
  securityLayers ++ limiterLayers ++ parserLayers ++ routeLayers
  ++ livenessLayers ++ terminalLayers.

(** One request through the application, from a fresh response. *)
Definition handle (s : LimiterState) (req : Request) : Result :=
  dispatch app None req {| resHeaders := []; limiters := s |}.

(** The request matches a route group or one of the two liveness
    endpoints. *)
Definition matched (req : Request) : bool :=
  existsb (fun g => mounted (mountPath g) (path req)) routeGroups
  || isHealth req || isRoot req.

(** The layers that come after the limiters. *)
Definition downstream (l : Label) : bool :=
  match l with
  | JsonParser | UrlencodedParser | Route _ | Health | Root | NotFound => true
  | _ => false
  end.

(** The rate limiters. *)
Definition rateLimiter (l : Label) : bool :=
  match l with
  | GeneralLimiter | UploadLimiter | SummarizeLimiter | PdfLimiter => true
  | _ => false
  end.

(** The layers that answer a request on behalf of an endpoint. *)
Definition handler (l : Label) : bool :=
  match l with
  | Route _ | Health | Root | NotFound => true
  | _ => false
  end.

End Dispatch.

Arguments Build_Ctx {LimiterState}.
Arguments resHeaders {LimiterState}.
Arguments limiters {LimiterState}.
Arguments Continue {LimiterState}.
Arguments Throw {LimiterState}.
Arguments Reply {LimiterState}.
Arguments Use {LimiterState}.
Arguments UseErr {LimiterState}.
Arguments label {LimiterState}.
Arguments ctxOf {LimiterState}.
Arguments keeps {LimiterState}.
Arguments isUse {LimiterState}.
Arguments keepsLimiters {LimiterState}.
Arguments sameOutcome {LimiterState}.
Arguments ignoresLimiters {LimiterState}.
Arguments answers {LimiterState}.
Arguments appliesTo {LimiterState}.
Arguments Build_Result {LimiterState}.
Arguments response {LimiterState}.
Arguments repliedBy {LimiterState}.
Arguments visited {LimiterState}.
Arguments finalState {LimiterState}.
Arguments finish {LimiterState}.
Arguments visit {LimiterState}.
Arguments finalhandler {LimiterState}.
Arguments continueWith {LimiterState}.
Arguments dispatch {LimiterState}.
Arguments withHeaders {LimiterState}.
Arguments headerLayer {LimiterState}.
Arguments corsLayer {LimiterState}.
Arguments limiterLayer {LimiterState}.
Arguments parserLayer {LimiterState}.
Arguments routeLayer {LimiterState}.
Arguments health {LimiterState}.
Arguments root {LimiterState}.
Arguments errorLayer {LimiterState}.
Arguments notFound {LimiterState}.
Arguments mountRoute {LimiterState}.
Arguments securityLayers {LimiterState}.
Arguments limiterLayers {LimiterState}.
Arguments parserLayers {LimiterState}.
Arguments routeLayers {LimiterState}.
Arguments livenessLayers {LimiterState}.
Arguments terminalLayers {LimiterState}.
Arguments app {LimiterState}.
Arguments handle {LimiterState}.

End Stack.

(** ** Start-up (server.js lines 18 and 121-125) *)

Module Startup.

(** [process.env.PORT || 5000], as the banner prints it. *)
Definition port (envPort : option string) : string := Js.orElse envPort "5000".

(** [process.env.NODE_ENV || 'development']. *)
Definition environment (nodeEnv : option string) : string :=
  Js.orElse nodeEnv "development".

(** [process.env.FRONTEND_URL || 'http://localhost:3000']. *)
Definition frontendUrl (envUrl : option string) : string :=
  Js.orElse envUrl "http://localhost:3000".

(** The three lines the [app.listen] callback logs. *)
Definition banner (envPort nodeEnv envUrl : option string) : list string :=
  [ "Server running on port " ++ port envPort;
    "Environment: " ++ environment nodeEnv;
    "Frontend URL: " ++ frontendUrl envUrl ]%string.

End Startup.

(** ** The limiter middlewares *)

Module Limiter.
Import Http Express Stack.

(** Modelled from the spec: the limiter middlewares of
    [SecurityMiddleware.createRateLimiters] are not part of the sources at
    hand.  A limiter of class [cls] asks [RateLimit.admission] with the
    request's address as the client; on a refusal it replies itself, with
    [status] and [b] as its rate-limit error, instead of calling [next()]. *)
Definition limiterOf (cfg : RateLimit.RouteClass -> RateLimit.Config)
    (status : Z) (b : Body) (cls : RateLimit.RouteClass)
    (s : gmap RateLimit.Key RateLimit.Bucket) (req : Request)
  : LimiterVerdict * gmap RateLimit.Key RateLimit.Bucket :=
  match RateLimit.admission cfg s (cls, ip req) (time req) with
  | (RateLimit.Allow, s') => (Pass, s')
  | (RateLimit.Reject, s') => (Limited status b, s')
  end.

End Limiter.

(** ** Sample collaborators, used to evaluate the stack on concrete requests *)

Module Samples.
Import Http Express Stack.

Definition limits (c : RateLimit.RouteClass) : RateLimit.Config :=
  match c with
  | RateLimit.General => {| RateLimit.windowMs := 900000; RateLimit.maxCount := 100 |}
  | RateLimit.UploadClass => {| RateLimit.windowMs := 900000; RateLimit.maxCount := 10 |}
  | RateLimit.HeavyApi => {| RateLimit.windowMs := 60000; RateLimit.maxCount := 2 |}
  end.

Definition tooMany : Body := json [("error", Some "Too many requests")].

Definition helmet : list Header :=
  [("X-Content-Type-Options", "nosniff"); ("X-Frame-Options", "SAMEORIGIN")].

Definition extra : list Header :=
  [("X-XSS-Protection", "1; mode=block"); ("X-Frame-Options", "DENY")].

(** Route groups that serve their own mount path and pass everything
    below it on. *)
Definition routes (g : RouteGroup) (req : Request) : HandlerResult :=
  if atPath (mountPath g) (path req) then Handled 200 (Text "done") else PassOn.

Definition iso (t : Z) : string := "1970-01-01T00:00:00.000Z".

(** The application with the sample collaborators, for a given
    [CORS_ORIGIN] and [NODE_ENV]. *)
Definition server (corsOrigin nodeEnv : option string)
    (s : gmap RateLimit.Key RateLimit.Bucket) (req : Request)
  : Result (gmap RateLimit.Key RateLimit.Bucket) :=
  handle corsOrigin nodeEnv helmet extra
    (Limiter.limiterOf limits 429 tooMany RateLimit.General)
    (Limiter.limiterOf limits 429 tooMany RateLimit.UploadClass)
    (Limiter.limiterOf limits 429 tooMany RateLimit.HeavyApi)
    routes iso s req.

Definition get (p : string) (o : option string) : Request :=
  {| method := GET; path := p; origin := o; ip := "203.0.113.7"; time := 0;
     contentType := NoBody; bodyLength := 0; bodyError := None |}.

Definition postJson (p : string) (n : Z) : Request :=
  {| method := POST; path := p; origin := None; ip := "203.0.113.7";
     time := 0; contentType := JsonBody; bodyLength := n; bodyError := None |}.

End Samples.

(** * Properties *)

(** ** Strings *)

Lemma append_cons (a : ascii) (s t : string) :
  (String a s ++ t)%string = String a (s ++ t)%string.
Proof. reflexivity. Qed.

Lemma append_nil (t : string) : (EmptyString ++ t)%string = t.
Proof. reflexivity. Qed.

Lemma prefix_app (n s : string) :
  String.prefix n s = true <-> exists post, s = (n ++ post)%string.
Proof.
  revert s; induction n as [|a n IH]; intros s.
  - split; [intros _; exists s; reflexivity | intros _; destruct s; reflexivity].
  - destruct s as [|b s]; simpl.
    + split; [discriminate | intros [post H]; discriminate].
    + destruct (Ascii.ascii_dec a b) as [->|Hne].
      * rewrite IH. split; intros [post H]; exists post;
          rewrite ?append_cons in *; congruence.
      * split; [discriminate|].
        intros [post H]. rewrite append_cons in H. congruence.
Qed.

Lemma includes_nil (n : string) :
  Js.includes n EmptyString = String.prefix n EmptyString.
Proof. unfold Js.includes. apply orb_false_r. Qed.

Lemma includes_cons (n : string) (c : ascii) (s : string) :
  Js.includes n (String c s) = String.prefix n (String c s) || Js.includes n s.
Proof. reflexivity. Qed.

Lemma includes_app (n s : string) :
  Js.includes n s = true <-> exists pre post, s = (pre ++ n ++ post)%string.
Proof.
  induction s as [|c s IH].
  - rewrite includes_nil, prefix_app. split.
    + intros [post H]. exists EmptyString, post. exact H.
    + intros [[|a pre] [post H]]; [exists post; exact H | discriminate].
  - rewrite includes_cons, orb_true_iff, IH, prefix_app. split.
    + intros [[post H] | [pre [post H]]].
      * exists EmptyString, post. exact H.
      * exists (String c pre), post. rewrite append_cons. congruence.
    + intros [[|a pre] [post H]].
      * left. exists post. exact H.
      * right. exists pre, post. rewrite append_cons in H. congruence.
Qed.

Lemma includes_empty (n : string) :
  n <> EmptyString -> Js.includes n EmptyString = false.
Proof. destruct n; [congruence | reflexivity]. Qed.

Lemma array_has_In (xs : list string) (x : string) :
  Js.array_has xs x = true <-> In x xs.
Proof.
  unfold Js.array_has. rewrite existsb_exists. split.
  - intros [y [Hy Heq]]. apply String.eqb_eq in Heq. congruence.
  - intros H. exists x. split; [exact H | apply String.eqb_refl].
Qed.

Lemma array_has_not_In (xs : list string) (x : string) :
  Js.array_has xs x = false <-> ~ In x xs.
Proof.
  rewrite <- array_has_In. destruct (Js.array_has xs x); split; congruence.
Qed.

(** ** The error-handling middleware *)

Module ErrorTranslatorProps.
Import Http ErrorTranslator.

(** A message that mentions the pattern is not empty, so the truthiness
    test of the handler never hides a match. *)
Lemma mentions_truthy (e : Failure.t) :
  mentionsInvalidFileType e = true -> Js.truthy (Failure.message e) = true.
Proof.
  unfold mentionsInvalidFileType.
  destruct (Failure.message e) as [[|c m]|]; simpl; congruence.
Qed.

Lemma handler_by_class (nodeEnv : option string) (e : Failure.t) :
  errorHandler nodeEnv e =
  match classify e with
  | UploadSize => (400, json [("error", Some fileTooLargeText)])
  | InvalidFileType => (400, json [("error", Failure.message e)])
  | Generic =>
      (500, json [("error", Some unexpectedText);
                  ("details", if isDevelopment nodeEnv
                              then Failure.message e else None)])
  end.
Proof.
  unfold errorHandler, classify, isUploadSize.
  destruct (Failure.isMulterError e
            && Js.strict_eq (Failure.code e) (Some "LIMIT_FILE_SIZE"));
    [reflexivity|].
  destruct (mentionsInvalidFileType e) eqn:Hm.
  - rewrite (mentions_truthy e Hm). unfold mentionsInvalidFileType in Hm.
    rewrite Hm. reflexivity.
  - unfold mentionsInvalidFileType in Hm. rewrite Hm, andb_false_r.
    reflexivity.
Qed.

Lemma generic_details (nodeEnv : option string) (e : Failure.t) :
  classify e = Generic ->
  field "details" (snd (errorHandler nodeEnv e)) =
  if isDevelopment nodeEnv then Failure.message e else None.
Proof.
  intros H. rewrite handler_by_class, H.
  destruct (isDevelopment nodeEnv); [|reflexivity].
  destruct (Failure.message e); reflexivity.
Qed.

Lemma isDevelopment_iff (nodeEnv : option string) :
  isDevelopment nodeEnv = true <-> nodeEnv = Some "development".
Proof.
  unfold isDevelopment, Js.strict_eq. destruct nodeEnv as [s|].
  - rewrite String.eqb_eq. split; congruence.
  - split; discriminate.
Qed.

Lemma isUploadSize_iff (e : Failure.t) :
  isUploadSize e = true <->
  Failure.isMulterError e = true /\ Failure.code e = Some "LIMIT_FILE_SIZE".
Proof.
  unfold isUploadSize, Js.strict_eq. rewrite andb_true_iff.
  destruct (Failure.code e) as [c|].
  - rewrite String.eqb_eq. split; intros [H1 H2]; split; congruence.
  - split; intros [H1 H2]; discriminate.
Qed.



Example size_violation_wins :
  errorHandler None (Failure.MulterError "LIMIT_FILE_SIZE"
                       "Invalid file type: too large") =
  (400, Json [("error", fileTooLargeText)]).
Proof. reflexivity. Qed.

Example other_multer_error_is_generic :
  errorHandler (Some "production")
    (Failure.MulterError "LIMIT_FILE_COUNT" "Too many files") =
  (500, Json [("error", unexpectedText)]).
Proof. reflexivity. Qed.

Example development_shows_details :
  errorHandler (Some "development") (Failure.Error "boom") =
  (500, Json [("error", unexpectedText); ("details", "boom")]).
Proof. reflexivity. Qed.

(** Only the value 'development' shows the details: an unset NODE_ENV,
    which the start-up banner of line 123 prints as development, does not. *)
Example unset_environment_hides_details :
  errorHandler None (Failure.Error "boom") =
  (500, Json [("error", unexpectedText)]).
Proof. reflexivity. Qed.

(** C9 as stated fails: NODE_ENV is development, the failure is generic,
    and the response has no [details] field, because the value handed on
    carries a code but no message. *)
Lemma C9_development_without_details :
  let e := {| Failure.isMulterError := false;
              Failure.code := Some "ECONNRESET";
              Failure.message := None |} in
  classify e = Generic /\
  isDevelopment (Some "development") = true /\
  fst (errorHandler (Some "development") e) = 500 /\
  field "details" (snd (errorHandler (Some "development") e)) = None.
Proof. repeat split. Qed.

(** C9 (amended): for every generic failure the response is a 500 whose
    [details] field is never present unless NODE_ENV is development; when
    it is development the field is the failure's message, so it is present
    exactly when the failure has a message. *)
Theorem C9_details_only_in_development
    (nodeEnv : option string) (e : Failure.t) :
  classify e = Generic ->
  fst (errorHandler nodeEnv e) = 500 /\
  (isDevelopment nodeEnv = false ->
     field "details" (snd (errorHandler nodeEnv e)) = None) /\
  (isDevelopment nodeEnv = true ->
     field "details" (snd (errorHandler nodeEnv e)) = Failure.message e) /\
  (field "details" (snd (errorHandler nodeEnv e)) <> None <->
     isDevelopment nodeEnv = true /\ Failure.message e <> None).
Proof.
  intros Hg. rewrite (generic_details nodeEnv e Hg).
  split; [rewrite handler_by_class, Hg; reflexivity|].
  destruct (isDevelopment nodeEnv).
  - split; [discriminate|]. split; [reflexivity|].
    split; [intros H; split; [reflexivity | exact H] | intros [_ H]; exact H].
  - split; [reflexivity|]. split; [discriminate|].
    split; [congruence | intros [H _]; discriminate].
Qed.

Lemma C9_details_witness :
  field "details"
    (snd (errorHandler (Some "development") (Failure.Error "boom")))
  = Some "boom" /\
  field "details"
    (snd (errorHandler (Some "production") (Failure.Error "boom")))
  = None.
Proof.
  split.
  - destruct (C9_details_only_in_development (Some "development")
                (Failure.Error "boom") eq_refl) as [_ [_ [H _]]].
    exact (H eq_refl).
  - destruct (C9_details_only_in_development (Some "production")
                (Failure.Error "boom") eq_refl) as [_ [H _]].
    exact (H eq_refl).
Defined.

End ErrorTranslatorProps.

(** ** The upload configuration *)

Module UploadProps.
Import Http Upload.

Lemma fileFilter_keeps (f : File) :
  fileFilter f = inr true <-> In (mimetype f) allowedTypes.
Proof.
  unfold fileFilter. rewrite <- array_has_In.
  destruct (Js.array_has allowedTypes (mimetype f)); split; congruence.
Qed.

Lemma fileFilter_refuses (f : File) :
  ~ In (mimetype f) allowedTypes ->
  fileFilter f = inl (Failure.Error invalidTypeText).
Proof.
  intros H. apply array_has_not_In in H. unfold fileFilter. rewrite H.
  reflexivity.
Qed.

Lemma tripsLimit_above (atLimit : bool) (n : Z) :
  fileSize < n -> tripsLimit atLimit n = true.
Proof.
  intros H. unfold tripsLimit. destruct atLimit.
  - destruct (Z.geb_spec n fileSize); [reflexivity | lia].
  - destruct (Z.gtb_spec n fileSize); [reflexivity | lia].
Qed.

Lemma tripsLimit_below (atLimit : bool) (n : Z) :
  n < fileSize -> tripsLimit atLimit n = false.
Proof.
  intros H. unfold tripsLimit. destruct atLimit.
  - destruct (Z.geb_spec n fileSize); [lia | reflexivity].
  - destruct (Z.gtb_spec n fileSize); [lia | reflexivity].
Qed.

Lemma upload_accepts (atLimit : bool) (f : File) :
  upload atLimit f = inr (Some f) <->
  In (mimetype f) allowedTypes /\ tripsLimit atLimit (size f) = false.
Proof.
  unfold upload, fileFilter. rewrite <- array_has_In.
  destruct (Js.array_has allowedTypes (mimetype f)).
  - destruct (tripsLimit atLimit (size f)); split.
    + discriminate.
    + intros [_ H]. discriminate.
    + intros _. split; reflexivity.
    + reflexivity.
  - split; [discriminate | intros [H _]; discriminate].
Qed.

(** C2 as stated fails: a part of an allowed media type is refused when
    its content is longer than the size limit. *)
Lemma C2_allowed_type_refused :
  let f := {| mimetype := "text/plain"; size := 10 * 1024 * 1024 + 1 |} in
  In (mimetype f) allowedTypes /\
  (forall atLimit, upload atLimit f = inl limitFileSize) /\
  (forall atLimit, upload atLimit f <> inr (Some f)).
Proof.
  split; [left; reflexivity|].
  split; intros []; (reflexivity || discriminate).
Qed.

(** C2 (amended): the allow-list has exactly the four types text/plain,
    text/markdown, application/json and text/csv, and the filter keeps a
    part exactly when its declared media type is one of them.  The upload
    middleware attaches a part exactly when the filter keeps it and its
    content does not trip the size limit: every part of an allowed type
    below 10*1024*1024 bytes is attached, and none above.  A part of any
    other type, application/pdf for one, is refused with the failure that
    the error handler answers with status 400 and the invalid-file-type
    message; a text/plain part of one byte is attached. *)
Theorem C2_upload_filter (atLimit : bool) (f : File) :
  allowedTypes =
    ["text/plain"; "text/markdown"; "application/json"; "text/csv"] /\
  (fileFilter f = inr true <-> In (mimetype f) allowedTypes) /\
  (upload atLimit f = inr (Some f) <->
     In (mimetype f) allowedTypes /\ tripsLimit atLimit (size f) = false) /\
  (In (mimetype f) allowedTypes -> size f < 10 * 1024 * 1024 ->
     upload atLimit f = inr (Some f)) /\
  (10 * 1024 * 1024 < size f -> upload atLimit f <> inr (Some f)) /\
  (~ In (mimetype f) allowedTypes ->
     upload atLimit f = inl (Failure.Error invalidTypeText)) /\
  (forall n, upload atLimit {| mimetype := "application/pdf"; size := n |} =
             inl (Failure.Error invalidTypeText)) /\
  (forall nodeEnv,
     ErrorTranslator.errorHandler nodeEnv (Failure.Error invalidTypeText) =
     (400, Json [("error", invalidTypeText)])) /\
  upload atLimit {| mimetype := "text/plain"; size := 1 |} =
    inr (Some {| mimetype := "text/plain"; size := 1 |}).
Proof.
  split; [reflexivity|].
  split; [apply fileFilter_keeps|].
  split; [apply upload_accepts|].
  split.
  { intros Hin Hsize. apply upload_accepts. split; [exact Hin|].
    apply tripsLimit_below. exact Hsize. }
  split.
  { intros Hsize H. apply upload_accepts in H as [_ H].
    rewrite tripsLimit_above in H by exact Hsize. discriminate. }
  split.
  { intros H. unfold upload. rewrite (fileFilter_refuses f H). reflexivity. }
  split; [reflexivity|].
  split; [reflexivity|].
  destruct atLimit; reflexivity.
Qed.

(** C3 as stated fails: an over-long part of a type outside the allowed
    ones is refused by the filter, so the client is told of the invalid
    type and not of the size. *)
Lemma C3_oversized_pdf :
  let f := {| mimetype := "application/pdf"; size := 10 * 1024 * 1024 + 1 |} in
  size f > 10 * 1024 * 1024 /\
  (forall atLimit, upload atLimit f = inl (Failure.Error invalidTypeText)) /\
  (forall atLimit, upload atLimit f <> inl limitFileSize) /\
  ErrorTranslator.errorHandler None (Failure.Error invalidTypeText) =
    (400, Json [("error", invalidTypeText)]) /\
  ErrorTranslator.errorHandler None (Failure.Error invalidTypeText) <>
    (400, Json [("error", ErrorTranslator.fileTooLargeText)]).
Proof.
  split; [reflexivity|]. split; [intros atLimit; reflexivity|].
  split; [intros atLimit; discriminate|].
  split; [reflexivity | discriminate].
Qed.

(** C3 (amended): every file part whose declared media type is one of the
    allowed types and whose size exceeds 10*1024*1024 bytes is refused with
    multer's LIMIT_FILE_SIZE error, which the error handler answers with
    status 400 and "File too large. Maximum size is 10MB.". *)
Theorem C3_oversized_allowed_type (nodeEnv : option string)
    (atLimit : bool) (f : File) :
  In (mimetype f) allowedTypes ->
  size f > 10 * 1024 * 1024 ->
  upload atLimit f = inl limitFileSize /\
  ErrorTranslator.errorHandler nodeEnv limitFileSize =
    (400, Json [("error", ErrorTranslator.fileTooLargeText)]).
Proof.
  intros Hin Hsize. split; [|reflexivity].
  unfold upload. apply fileFilter_keeps in Hin. rewrite Hin.
  rewrite tripsLimit_above; [reflexivity|]. unfold fileSize. lia.
Qed.

Lemma C3_oversized_csv_witness :
  upload false {| mimetype := "text/csv"; size := 10 * 1024 * 1024 + 1 |} =
    inl limitFileSize /\
  ErrorTranslator.errorHandler (Some "production") limitFileSize =
    (400, Json [("error", ErrorTranslator.fileTooLargeText)]).
Proof.
  apply (C3_oversized_allowed_type (Some "production") false
           {| mimetype := "text/csv"; size := 10 * 1024 * 1024 + 1 |}).
  - simpl. right. right. right. left. reflexivity.
  - reflexivity.
Defined.

End UploadProps.

(** ** The fixed counting window *)

Module RateLimitProps.
Import RateLimit.

Section Window.

Variable cfg : RouteClass -> Config.
Variable k : Key.

Local Abbreviation window := (windowMs (cfg (fst k))).
Local Abbreviation top := (maxCount (cfg (fst k))).

Lemma serve_cons (tbl : gmap Key Bucket) (k' : Key) (now : Z)
    (rest : list (Key * Z)) :
  serve cfg tbl ((k', now) :: rest) =
  ((k', fst (admission cfg tbl k' now))
     :: fst (serve cfg (snd (admission cfg tbl k' now)) rest),
   snd (serve cfg (snd (admission cfg tbl k' now)) rest)).
Proof.
  simpl. destruct (admission cfg tbl k' now) as [v tbl']. simpl.
  destruct (serve cfg tbl' rest) as [vs final]. reflexivity.
Qed.

Lemma verdictsOf_cons (k' : Key) (v : Verdict) (log : list (Key * Verdict)) :
  verdictsOf k ((k', v) :: log) =
  if bool_decide (k' = k) then v :: verdictsOf k log else verdictsOf k log.
Proof. unfold verdictsOf. simpl. destruct (bool_decide (k' = k)); reflexivity. Qed.

Lemma timesOf_cons (k' : Key) (t : Z) (reqs : list (Key * Z)) :
  timesOf k ((k', t) :: reqs) =
  if bool_decide (k' = k) then t :: timesOf k reqs else timesOf k reqs.
Proof. unfold timesOf. simpl. destruct (bool_decide (k' = k)); reflexivity. Qed.

(** A request of another key leaves the bucket of [k] alone. *)
Lemma admission_other (tbl : gmap Key Bucket) (k' : Key) (now : Z) :
  k' <> k -> snd (admission cfg tbl k' now) !! k = tbl !! k.
Proof.
  intros Hne. unfold admission.
  destruct (count _ <? maxCount _); simpl; apply lookup_insert_ne; exact Hne.
Qed.

(** A request of [k] inside the window of its stored bucket. *)
Lemma admission_live (tbl : gmap Key Bucket) (c r now : Z) :
  tbl !! k = Some {| count := c; resetAt := r |} ->
  now < r ->
  admission cfg tbl k now =
  if c <? top
  then (Allow, <[k := {| count := c + 1; resetAt := r |}]> tbl)
  else (Reject, <[k := {| count := c; resetAt := r |}]> tbl).
Proof.
  intros Hb Hnow. unfold admission, current. rewrite Hb. simpl.
  destruct (Z.ltb_spec now r) as [_|Hge]; [reflexivity | lia].
Qed.

(** A request of [k] that finds no bucket, or one whose window is over. *)
Lemma admission_fresh (tbl : gmap Key Bucket) (now : Z) :
  (tbl !! k = None \/ exists b, tbl !! k = Some b /\ resetAt b <= now) ->
  admission cfg tbl k now =
  if 0 <? top
  then (Allow, <[k := {| count := 1; resetAt := now + window |}]> tbl)
  else (Reject, <[k := {| count := 0; resetAt := now + window |}]> tbl).
Proof.
  intros Hb. unfold admission.
  assert (Hcur : current (cfg (fst k)) (tbl !! k) now =
                 {| count := 0; resetAt := now + window |}).
  { unfold current. destruct Hb as [-> | [b [-> Hover]]]; [reflexivity|].
    destruct (Z.ltb_spec now (resetAt b)) as [Hlt|_]; [lia | reflexivity]. }
  rewrite Hcur. reflexivity.
Qed.

(** Inside a window that stands at count [c], the [i]-th further request
    of [k] is let through exactly when [c + i] is below the maximum, and
    the window keeps its end. *)
Lemma serve_live (reqs : list (Key * Z)) :
  forall (tbl : gmap Key Bucket) (c r : Z),
    tbl !! k = Some {| count := c; resetAt := r |} ->
    Forall (fun t => t < r) (timesOf k reqs) ->
    (forall (i : nat) (v : Verdict),
       verdictsOf k (fst (serve cfg tbl reqs)) !! i = Some v ->
       (v = Allow <-> c + Z.of_nat i < top)) /\
    length (verdictsOf k (fst (serve cfg tbl reqs))) = length (timesOf k reqs) /\
    exists c', snd (serve cfg tbl reqs) !! k = Some {| count := c'; resetAt := r |}.
Proof.
  induction reqs as [|[k' now] rest IH]; intros tbl c r Hb Htimes.
  - simpl. split; [intros i v H; destruct i; discriminate|].
    split; [reflexivity | exists c; exact Hb].
  - rewrite serve_cons. simpl fst. simpl snd.
    rewrite verdictsOf_cons. rewrite timesOf_cons in Htimes |- *.
    destruct (bool_decide (k' = k)) eqn:Hk.
    + apply bool_decide_eq_true in Hk. subst k'.
      apply Forall_cons in Htimes as [Hnow Hrest].
      rewrite (admission_live tbl c r now Hb Hnow).
      destruct (Z.ltb_spec c top) as [Hlt|Hge]; simpl fst; simpl snd.
      * destruct (IH (<[k := {| count := c + 1; resetAt := r |}]> tbl)
                    (c + 1) r (lookup_insert_eq _ _ _) Hrest)
          as [Hv [Hlen Hend]].
        split; [|split; [simpl; congruence | exact Hend]].
        intros [|i] v Hi.
        -- simpl in Hi. injection Hi as <-. split; [lia | reflexivity].
        -- simpl in Hi. rewrite (Hv i v Hi). lia.
      * destruct (IH (<[k := {| count := c; resetAt := r |}]> tbl)
                    c r (lookup_insert_eq _ _ _) Hrest)
          as [Hv [Hlen Hend]].
        split; [|split; [simpl; congruence | exact Hend]].
        intros [|i] v Hi.
        -- simpl in Hi. injection Hi as <-. split; [discriminate | lia].
        -- simpl in Hi. rewrite (Hv i v Hi). lia.
    + apply bool_decide_eq_false in Hk.
      apply IH; [|exact Htimes].
      rewrite (admission_other tbl k' now Hk). exact Hb.
Qed.

(** From a table in which [k] has no running window, up to the end of the
    window that the first request of [k] opens at [t0]. *)
Lemma serve_window (reqs : list (Key * Z)) :
  forall (tbl : gmap Key Bucket) (t0 : Z) (ts : list Z),
    (tbl !! k = None \/ exists b, tbl !! k = Some b /\ resetAt b <= t0) ->
    timesOf k reqs = t0 :: ts ->
    Forall (fun t => t0 <= t < t0 + window) ts ->
    (forall (i : nat) (v : Verdict),
       verdictsOf k (fst (serve cfg tbl reqs)) !! i = Some v ->
       (v = Allow <-> Z.of_nat i < top)) /\
    length (verdictsOf k (fst (serve cfg tbl reqs))) = S (length ts) /\
    exists c', snd (serve cfg tbl reqs) !! k =
               Some {| count := c'; resetAt := t0 + window |}.
Proof.
  induction reqs as [|[k' now] rest IH]; intros tbl t0 ts Hb Htimes Hin.
  - discriminate.
  - rewrite serve_cons. simpl fst. simpl snd.
    rewrite verdictsOf_cons. rewrite timesOf_cons in Htimes.
    destruct (bool_decide (k' = k)) eqn:Hk.
    + apply bool_decide_eq_true in Hk. subst k'.
      injection Htimes as -> Hts.
      assert (Hlive : Forall (fun t => t < t0 + window) (timesOf k rest)).
      { rewrite Hts. eapply Forall_impl; [exact Hin|]. simpl. intros t H. lia. }
      rewrite (admission_fresh tbl t0 Hb).
      destruct (Z.ltb_spec 0 top) as [Hlt|Hge]; simpl fst; simpl snd.
      * destruct (serve_live rest
                    (<[k := {| count := 1; resetAt := t0 + window |}]> tbl)
                    1 (t0 + window) (lookup_insert_eq _ _ _) Hlive)
          as [Hv [Hlen Hend]].
        split; [|split; [simpl; congruence | exact Hend]].
        intros [|i] v Hi.
        -- simpl in Hi. injection Hi as <-. split; [lia | reflexivity].
        -- simpl in Hi. rewrite (Hv i v Hi). lia.
      * destruct (serve_live rest
                    (<[k := {| count := 0; resetAt := t0 + window |}]> tbl)
                    0 (t0 + window) (lookup_insert_eq _ _ _) Hlive)
          as [Hv [Hlen Hend]].
        split; [|split; [simpl; congruence | exact Hend]].
        intros [|i] v Hi.
        -- simpl in Hi. injection Hi as <-. split; [discriminate | lia].
        -- simpl in Hi. rewrite (Hv i v Hi). lia.
    + apply bool_decide_eq_false in Hk.
      apply IH; [|exact Htimes|exact Hin].
      rewrite (admission_other tbl k' now Hk). exact Hb.
Qed.

End Window.

End RateLimitProps.

(** ** Paths *)

Module PathProps.
Import Express.

Lemma lowerAscii_slash (b : ascii) :
  Js.lowerAscii b = "/"%char -> b = "/"%char.
Proof.
  destruct b as [[] [] [] [] [] [] [] []]; vm_compute; congruence.
Qed.

Lemma lower_cons (c : ascii) (s : string) :
  Js.lower (String c s) = String (Js.lowerAscii c) (Js.lower s).
Proof. reflexivity. Qed.

Lemma prefixAtBoundary_cons (a : ascii) (p : string) (b : ascii)
    (path : string) :
  prefixAtBoundary (String a p) (String b path) =
  Ascii.eqb (Js.lowerAscii a) (Js.lowerAscii b) && prefixAtBoundary p path.
Proof. reflexivity. Qed.

Lemma prefixAtBoundary_nil (b : ascii) (path : string) :
  prefixAtBoundary EmptyString (String b path) = Ascii.eqb b "/".
Proof. reflexivity. Qed.

(** A path that [p] is a prefix of reads, in lower case, as [p] in lower
    case followed by nothing or by a slash and more. *)
Lemma prefixAtBoundary_lower (p path : string) :
  prefixAtBoundary p path = true ->
  exists rest, Js.lower path = (Js.lower p ++ rest)%string.
Proof.
  revert path. induction p as [|a p IH]; intros path H.
  - exists (Js.lower path). reflexivity.
  - destruct path as [|b path]; [discriminate|].
    rewrite prefixAtBoundary_cons in H.
    apply andb_prop in H as [Hab Hrest]. apply Ascii.eqb_eq in Hab.
    destruct (IH path Hrest) as [rest Hlow]. exists rest.
    rewrite !lower_cons, append_cons, Hab, Hlow. reflexivity.
Qed.

Lemma prefixAtBoundary_intro (p path rest : string) :
  Js.lower path = (Js.lower p ++ rest)%string ->
  (rest = EmptyString \/ exists r, rest = String "/" r) ->
  prefixAtBoundary p path = true.
Proof.
  revert path. induction p as [|a p IH]; intros path Hlow Hrest.
  - rewrite append_nil in Hlow. destruct path as [|b path]; [reflexivity|].
    destruct Hrest as [-> | [r ->]]; [discriminate|].
    rewrite lower_cons in Hlow. injection Hlow as Hb _.
    apply lowerAscii_slash in Hb. subst b. reflexivity.
  - destruct path as [|b path];
      rewrite ?lower_cons, append_cons in Hlow; [discriminate|].
    injection Hlow as Hb Hlow.
    rewrite prefixAtBoundary_cons, Hb, Ascii.eqb_refl.
    apply IH; assumption.
Qed.

(** A path under [p/q] is a path under [p]. *)
Lemma prefixAtBoundary_shorter (p q path : string) :
  prefixAtBoundary (p ++ String "/" q) path = true ->
  prefixAtBoundary p path = true.
Proof.
  revert path. induction p as [|a p IH]; intros path H.
  - rewrite append_nil in H. destruct path as [|b path]; [discriminate|].
    rewrite prefixAtBoundary_cons in H.
    apply andb_prop in H as [Hb _]. apply Ascii.eqb_eq in Hb.
    symmetry in Hb. apply lowerAscii_slash in Hb. subst b. reflexivity.
  - rewrite append_cons in H. destruct path as [|b path]; [discriminate|].
    rewrite prefixAtBoundary_cons in H |- *.
    apply andb_prop in H as [Hab Hrest].
    rewrite Hab. apply IH. exact Hrest.
Qed.

Lemma mounted_api_of_group (g : Stack.RouteGroup) (path : string) :
  mounted (Stack.mountPath g) path = true -> mounted "/api/" path = true.
Proof.
  unfold mounted. intros H.
  change (stripSlash "/api/") with "/api".
  destruct g; simpl Stack.mountPath in H;
    match type of H with
    | prefixAtBoundary (stripSlash ?m) _ = true =>
        let m' := eval vm_compute in (stripSlash m) in
        change (stripSlash m) with m' in H
    end;
    eapply (prefixAtBoundary_shorter "/api"); exact H.
Qed.

Lemma mounted_api_of_health (path : string) :
  atPath "/api/health" path = true -> mounted "/api/" path = true.
Proof.
  unfold atPath, mounted. change (stripSlash "/api/") with "/api".
  change (Js.lower (stripSlash "/api/health")) with "/api/health".
  intros H. apply orb_prop in H as [H|H]; apply String.eqb_eq in H.
  - apply (prefixAtBoundary_intro "/api" path "/health");
      [exact H | right; eexists; reflexivity].
  - apply (prefixAtBoundary_intro "/api" path "/health/");
      [exact H | right; eexists; reflexivity].
Qed.

(** No path is under two route groups. *)
Lemma mounted_one_group (g g' : Stack.RouteGroup) (path : string) :
  mounted (Stack.mountPath g) path = true ->
  mounted (Stack.mountPath g') path = true ->
  g = g'.
Proof.
  unfold mounted. intros H H'.
  apply prefixAtBoundary_lower in H as [r Hr].
  apply prefixAtBoundary_lower in H' as [r' Hr'].
  rewrite Hr in Hr'. clear Hr.
  destruct g, g'; try reflexivity; vm_compute in Hr'; discriminate.
Qed.

End PathProps.

(** ** The walk through the stack *)

Module StackProps.
Import Http Express Stack.

Section Walk.

Context {LimiterState : Type}.

Implicit Types (c : Ctx LimiterState) (req : Request).
Implicit Types (rest : list (Layer LimiterState)).

Lemma dispatch_use (l : Label) applies h rest req c :
  dispatch (Use l applies h :: rest) None req c =
  if applies req
  then continueWith l (h req c) (fun p c' => dispatch rest p req c')
  else dispatch rest None req c.
Proof. reflexivity. Qed.

Lemma dispatch_use_pending (l : Label) applies h rest (e : Failure.t) req c :
  dispatch (Use l applies h :: rest) (Some e) req c =
  dispatch rest (Some e) req c.
Proof. reflexivity. Qed.

Lemma dispatch_err (l : Label) h rest req c :
  dispatch (UseErr l h :: rest) None req c = dispatch rest None req c.
Proof. reflexivity. Qed.

Lemma dispatch_err_pending (l : Label) h rest (e : Failure.t) req c :
  dispatch (UseErr l h :: rest) (Some e) req c =
  continueWith l (h e req c) (fun p c' => dispatch rest p req c').
Proof. reflexivity. Qed.

Lemma run_header (l : Label) (fixed : list Header) rest req c :
  dispatch (Use l always (headerLayer fixed) :: rest) None req c =
  visit l (dispatch rest None req (withHeaders fixed c)).
Proof. reflexivity. Qed.

Lemma run_cors (corsOrigin : option string) rest req c :
  dispatch (Use CorsLayer always (corsLayer corsOrigin) :: rest) None req c =
  match Cors.originCallback (Cors.allowedOrigins corsOrigin) (origin req) with
  | inl e => visit CorsLayer (dispatch rest (Some e) req c)
  | inr false => visit CorsLayer (dispatch rest None req c)
  | inr true =>
      if bool_decide (method req = OPTIONS)
      then finish CorsLayer
             (withHeaders Cors.preflightHeaders
                (withHeaders (Cors.corsHeaders (origin req)) c)) 204 Empty
      else visit CorsLayer
             (dispatch rest None req
                (withHeaders (Cors.corsHeaders (origin req)) c))
  end.
Proof.
  rewrite dispatch_use. unfold always, corsLayer.
  destruct (Cors.originCallback _ _) as [e|[|]]; try reflexivity.
  destruct (bool_decide (method req = OPTIONS)); reflexivity.
Qed.

Lemma run_limiter (l : Label) applies
    (limiter : LimiterState -> Request -> LimiterVerdict * LimiterState)
    rest req c :
  dispatch (Use l applies (limiterLayer limiter) :: rest) None req c =
  if applies req
  then match fst (limiter (limiters c) req) with
       | Pass =>
           visit l (dispatch rest None req
                      {| resHeaders := resHeaders c;
                         limiters := snd (limiter (limiters c) req) |})
       | Limited status b =>
           finish l {| resHeaders := resHeaders c;
                       limiters := snd (limiter (limiters c) req) |} status b
       end
  else dispatch rest None req c.
Proof.
  rewrite dispatch_use. unfold limiterLayer.
  destruct (applies req); [|reflexivity].
  destruct (limiter (limiters c) req) as [[|status b] s]; reflexivity.
Qed.

Lemma run_parser (l : Label) (accepts : ContentType) rest req c :
  dispatch (Use l always (parserLayer accepts) :: rest) None req c =
  if bool_decide (contentType req = accepts)
  then match bodyFailure req with
       | Some e => visit l (dispatch rest (Some e) req c)
       | None => visit l (dispatch rest None req c)
       end
  else visit l (dispatch rest None req c).
Proof.
  rewrite dispatch_use. unfold always, parserLayer.
  destruct (bool_decide (contentType req = accepts)); [|reflexivity].
  destruct (bodyFailure req); reflexivity.
Qed.

Lemma run_route (routes : RouteGroup -> Request -> HandlerResult)
    (g : RouteGroup) rest req c :
  dispatch (mountRoute routes g :: rest) None req c =
  if mounted (mountPath g) (path req)
  then match routes g req with
       | Handled status b => finish (Route g) c status b
       | PassOn => visit (Route g) (dispatch rest None req c)
       | Failed e => visit (Route g) (dispatch rest (Some e) req c)
       end
  else dispatch rest None req c.
Proof.
  unfold mountRoute. rewrite dispatch_use. unfold routeLayer.
  destruct (mounted (mountPath g) (path req)); [|reflexivity].
  destruct (routes g req); reflexivity.
Qed.

Lemma run_route_pending (routes : RouteGroup -> Request -> HandlerResult)
    (g : RouteGroup) rest (e : Failure.t) req c :
  dispatch (mountRoute routes g :: rest) (Some e) req c =
  dispatch rest (Some e) req c.
Proof. reflexivity. Qed.

Lemma run_errorHandler (nodeEnv : option string) rest (e : Failure.t) req c :
  dispatch (UseErr ErrorHandler (errorLayer nodeEnv) :: rest) (Some e) req c =
  finish ErrorHandler c (fst (ErrorTranslator.errorHandler nodeEnv e))
    (snd (ErrorTranslator.errorHandler nodeEnv e)).
Proof.
  rewrite dispatch_err_pending. unfold errorLayer.
  destruct (ErrorTranslator.errorHandler nodeEnv e). reflexivity.
Qed.

Lemma run_notFound rest req c :
  dispatch (Use NotFound always notFound :: rest) None req c =
  finish NotFound c 404 (Json [("error", "Endpoint not found")]).
Proof. reflexivity. Qed.

End Walk.

(** *** Headers are only ever added *)

Lemma hasHeader_setHeader (k k' v : string) (hs : list Header) :
  hasHeader k hs = true -> hasHeader k (setHeader k' v hs) = true.
Proof.
  unfold hasHeader, setHeader. intros H. simpl.
  destruct (String.eqb_spec k k') as [->|Hne]; [reflexivity|]. simpl.
  apply existsb_exists in H as [h [Hin Hk]]. apply existsb_exists.
  exists h. split; [|exact Hk].
  apply filter_In. split; [exact Hin|].
  apply String.eqb_eq in Hk. subst k.
  destruct (String.eqb_spec k' (fst h)); [congruence | reflexivity].
Qed.

Lemma hasHeader_set (k v : string) (hs : list Header) :
  hasHeader k (setHeader k v hs) = true.
Proof. unfold hasHeader, setHeader. simpl. rewrite String.eqb_refl. reflexivity. Qed.

Lemma In_setHeader (k v k' v' : string) (hs : list Header) :
  k <> k' -> In (k, v) hs -> In (k, v) (setHeader k' v' hs).
Proof.
  intros Hne Hin. unfold setHeader. right. apply filter_In.
  split; [exact Hin|]. simpl.
  destruct (String.eqb_spec k' k); [congruence | reflexivity].
Qed.

Lemma hasHeader_setHeaders (k : string) (new hs : list Header) :
  hasHeader k hs = true -> hasHeader k (setHeaders new hs) = true.
Proof.
  unfold setHeaders. revert hs.
  induction new as [|[k' v'] new IH]; intros hs H; [exact H|].
  simpl. apply IH. apply hasHeader_setHeader. exact H.
Qed.

Lemma hasHeader_setHeaders_new (k v : string) (new hs : list Header) :
  In (k, v) new -> hasHeader k (setHeaders new hs) = true.
Proof.
  unfold setHeaders. revert hs.
  induction new as [|[k' v'] new IH]; intros hs Hin; [destruct Hin|].
  simpl. destruct Hin as [Heq|Hin].
  - injection Heq as -> ->.
    apply (hasHeader_setHeaders k new). apply hasHeader_set.
  - apply IH. exact Hin.
Qed.

Lemma In_setHeaders (k v : string) (new hs : list Header) :
  ~ In k (map fst new) -> In (k, v) hs -> In (k, v) (setHeaders new hs).
Proof.
  unfold setHeaders. revert hs.
  induction new as [|[k' v'] new IH]; intros hs Hfresh Hin; [exact Hin|].
  simpl. apply IH.
  - intros H. apply Hfresh. right. exact H.
  - apply In_setHeader; [|exact Hin].
    intros ->. apply Hfresh. left. reflexivity.
Qed.

Section Walk.

Context {LimiterState : Type}.

Implicit Types (c : Ctx LimiterState) (req : Request).
Implicit Types (stack rest : list (Layer LimiterState)).

Lemma continueWith_keeps (P : list Header -> Prop) (l : Label)
    (o : Outcome LimiterState) k :
  P (resHeaders (ctxOf o)) ->
  (forall p c, P (resHeaders c) -> P (headers (response (k p c)))) ->
  P (headers (response (continueWith l o k))).
Proof. intros Ho Hk. destruct o; simpl in *; auto. Qed.

(** Whatever the layers keep holds of the headers of the response. *)
Lemma dispatch_keeps (P : list Header -> Prop) stack :
  Forall (keeps P) stack ->
  forall pending req c,
    P (resHeaders c) -> P (headers (response (dispatch stack pending req c))).
Proof.
  induction 1 as [|layer rest Hlayer Hrest IH]; intros pending req c Hc.
  - destruct pending; exact Hc.
  - destruct layer as [l applies h | l h]; simpl in Hlayer.
    + destruct pending as [e|]; [apply IH; exact Hc|].
      rewrite dispatch_use. destruct (applies req); [|apply IH; exact Hc].
      apply continueWith_keeps; [apply Hlayer; exact Hc|].
      intros p c' Hc'. apply IH. exact Hc'.
    + destruct pending as [e|]; [|apply IH; exact Hc].
      rewrite dispatch_err_pending.
      apply continueWith_keeps; [apply Hlayer; exact Hc|].
      intros p c' Hc'. apply IH. exact Hc'.
Qed.

End Walk.

(** Rewrites the layers of a pending error away, up to the error handler. *)
Ltac skip_to_errorHandler :=
  repeat (rewrite dispatch_use_pending || rewrite run_route_pending);
  rewrite ?run_errorHandler.

(** *** The application *)

Section Application.

Context {LimiterState : Type}.
Variables (corsOrigin nodeEnv : option string).
Variables (helmetHeaders securityHeaders : list Header).
Variables (generalLimiter uploadLimiter apiLimiter :
             LimiterState -> Request -> LimiterVerdict * LimiterState).
Variable routes : RouteGroup -> Request -> HandlerResult.
Variable toISOString : Z -> string.

Implicit Types (c : Ctx LimiterState) (req : Request) (s : LimiterState).

Local Abbreviation respond :=
  (handle corsOrigin nodeEnv helmetHeaders securityHeaders
     generalLimiter uploadLimiter apiLimiter routes toISOString).

(** The layers behind CORS. *)
Local Abbreviation inner :=
  (limiterLayers generalLimiter uploadLimiter apiLimiter
   ++ parserLayers ++ routeLayers routes ++ livenessLayers toISOString
   ++ terminalLayers nodeEnv)%list.

(** The layers behind the limiters. *)
Local Abbreviation behindLimiters :=
  (parserLayers ++ routeLayers routes ++ livenessLayers toISOString
   ++ terminalLayers nodeEnv)%list.

Local Abbreviation allowed := (Cors.allowedOrigins corsOrigin).

(** The response under construction once the two header middlewares ran. *)
Local Abbreviation secured s :=
  (withHeaders securityHeaders
     (withHeaders helmetHeaders {| resHeaders := []; limiters := s |})).

Local Abbreviation translated e :=
  (ErrorTranslator.errorHandler nodeEnv e).

Lemma pending_uses (uses rest : list (Layer LimiterState))
    (e : Failure.t) req c :
  forallb isUse uses = true ->
  dispatch (uses ++ rest) (Some e) req c = dispatch rest (Some e) req c.
Proof.
  induction uses as [|[l applies h | l h] uses IH]; intros H.
  - reflexivity.
  - simpl in H. simpl. apply IH. exact H.
  - discriminate.
Qed.

(** A failure raised behind CORS is answered by the error handler. *)
Lemma pending_inner (e : Failure.t) req c :
  dispatch inner (Some e) req c =
  finish ErrorHandler c (fst (translated e)) (snd (translated e)).
Proof. unfold limiterLayers, parserLayers, routeLayers, livenessLayers,
         terminalLayers. cbn [List.app]. skip_to_errorHandler. reflexivity.
Qed.

Lemma pending_behindLimiters (e : Failure.t) req c :
  dispatch behindLimiters (Some e) req c =
  finish ErrorHandler c (fst (translated e)) (snd (translated e)).
Proof. unfold parserLayers, routeLayers, livenessLayers,
         terminalLayers. cbn [List.app]. skip_to_errorHandler. reflexivity.
Qed.

(** The first three layers, spelled out. *)
Lemma respond_unfold s req :
  respond s req =
  visit Helmet (visit SecurityHeaders
    match Cors.originCallback allowed (origin req) with
    | inl e =>
        visit CorsLayer
          (finish ErrorHandler (secured s)
             (fst (translated e)) (snd (translated e)))
    | inr false => visit CorsLayer (dispatch inner None req (secured s))
    | inr true =>
        if bool_decide (method req = OPTIONS)
        then finish CorsLayer
               (withHeaders Cors.preflightHeaders
                  (withHeaders (Cors.corsHeaders (origin req)) (secured s)))
               204 Empty
        else visit CorsLayer
               (dispatch inner None req
                  (withHeaders (Cors.corsHeaders (origin req)) (secured s)))
    end).
Proof.
  unfold handle, app, securityLayers. cbn [List.app].
  rewrite !run_header, run_cors.
  destruct (Cors.originCallback allowed (origin req)) as [e|[|]];
    try reflexivity.
  rewrite pending_inner. reflexivity.
Qed.

(** The layers behind CORS leave the headers alone. *)
Lemma inner_keeps (P : list Header -> Prop) : Forall (keeps P) inner.
Proof.
  unfold limiterLayers, parserLayers, routeLayers, livenessLayers,
    terminalLayers, mountRoute. cbn [List.app].
  repeat constructor; simpl; intros;
    unfold limiterLayer, parserLayer, routeLayer, health, root, errorLayer,
      notFound;
    repeat match goal with
           | |- context [let (_, _) := ?x in _] => destruct x
           | |- context [match ?x with _ => _ end] => destruct x
           end; simpl; assumption.
Qed.

Lemma inner_headers (pending : option Failure.t) req c :
  headers (response (dispatch inner pending req c)) = resHeaders c.
Proof.
  apply (dispatch_keeps (fun hs => hs = resHeaders c));
    [apply inner_keeps | reflexivity].
Qed.

(** The headers of the response: those of the two header middlewares,
    with the CORS headers on top when the origin callback allowed the
    request. *)
Lemma respond_headers s req :
  headers (response (respond s req)) =
  match Cors.originCallback allowed (origin req) with
  | inr true =>
      if bool_decide (method req = OPTIONS)
      then setHeaders Cors.preflightHeaders
             (setHeaders (Cors.corsHeaders (origin req))
                (setHeaders securityHeaders (setHeaders helmetHeaders [])))
      else setHeaders (Cors.corsHeaders (origin req))
             (setHeaders securityHeaders (setHeaders helmetHeaders []))
  | _ => setHeaders securityHeaders (setHeaders helmetHeaders [])
  end.
Proof.
  rewrite respond_unfold. cbn [visit response].
  destruct (Cors.originCallback allowed (origin req)) as [e|[|]].
  - reflexivity.
  - destruct (bool_decide (method req = OPTIONS)); [reflexivity|].
    cbn [visit response]. rewrite inner_headers. reflexivity.
  - cbn [visit response]. rewrite inner_headers. reflexivity.
Qed.

Lemma corsHeaders_names (o : option string) (k : string) :
  In k (map fst (Cors.corsHeaders o)) -> In k Cors.headerNames.
Proof.
  unfold Cors.corsHeaders, Cors.headerNames.
  destruct (Js.truthy o); [destruct o|]; simpl; intuition.
Qed.

Lemma preflightHeaders_names (k : string) :
  In k (map fst Cors.preflightHeaders) -> In k Cors.headerNames.
Proof. unfold Cors.headerNames. simpl. intuition. Qed.

(** C6: every response of the application, whichever layer sent it,
    carries every header that the two security middlewares set: the header
    is present, and it has the value they gave it unless its name is one of
    the CORS headers, which the [cors] layer sets after them. *)
Theorem C6_security_headers_on_every_response s req (k v : string) :
  In (k, v) (helmetHeaders ++ securityHeaders) ->
  hasHeader k (headers (response (respond s req))) = true /\
  (In (k, v) (setHeaders securityHeaders (setHeaders helmetHeaders [])) ->
   ~ In k Cors.headerNames ->
   In (k, v) (headers (response (respond s req)))).
Proof.
  intros Hin. rewrite respond_headers.
  assert (Hfixed : hasHeader k (setHeaders securityHeaders
                                  (setHeaders helmetHeaders [])) = true).
  { apply in_app_or in Hin as [Hin|Hin].
    - apply hasHeader_setHeaders. apply (hasHeader_setHeaders_new k v).
      exact Hin.
    - apply (hasHeader_setHeaders_new k v). exact Hin. }
  split.
  - destruct (Cors.originCallback allowed (origin req)) as [e|[|]];
      try exact Hfixed.
    destruct (bool_decide (method req = OPTIONS)).
    + do 2 apply hasHeader_setHeaders. exact Hfixed.
    + apply hasHeader_setHeaders. exact Hfixed.
  - intros Hval Hname.
    destruct (Cors.originCallback allowed (origin req)) as [e|[|]];
      try exact Hval.
    assert (Hcors : In (k, v)
              (setHeaders (Cors.corsHeaders (origin req))
                 (setHeaders securityHeaders (setHeaders helmetHeaders [])))).
    { apply In_setHeaders; [|exact Hval].
      intros H. apply Hname. eapply corsHeaders_names. exact H. }
    destruct (bool_decide (method req = OPTIONS)); [|exact Hcors].
    apply In_setHeaders; [|exact Hcors].
    intros H. apply Hname. apply preflightHeaders_names. exact H.
Qed.

Lemma originCallback_absent (origins : list string) :
  Cors.originCallback origins None = inr true.
Proof. reflexivity. Qed.

Lemma originCallback_listed (origins : list string) (o : string) :
  In o origins -> Cors.originCallback origins (Some o) = inr true.
Proof.
  intros H. apply array_has_In in H. unfold Cors.originCallback.
  destruct (negb (Js.truthy (Some o))); [reflexivity|]. rewrite H.
  reflexivity.
Qed.

Lemma originCallback_unlisted (origins : list string) (o : string) :
  o <> EmptyString -> ~ In o origins ->
  Cors.originCallback origins (Some o) = inl Cors.notAllowed.
Proof.
  intros Hne H. apply array_has_not_In in H. unfold Cors.originCallback.
  destruct o as [|a o]; [congruence|]. simpl. rewrite H. reflexivity.
Qed.

Lemma credentials_announced (o : option string) (hs : list Header) :
  In ("Access-Control-Allow-Credentials", "true")
     (setHeaders (Cors.corsHeaders o) hs).
Proof.
  unfold Cors.corsHeaders.
  destruct (Js.truthy o); [destruct o|];
    cbn [List.app setHeaders fold_left fst snd]; left; reflexivity.
Qed.

(** A request that the origin callback refuses is answered by the error
    handler, straight after the CORS layer. *)
Lemma respond_refused s req (e : Failure.t) :
  Cors.originCallback allowed (origin req) = inl e ->
  visited (respond s req) = [Helmet; SecurityHeaders; CorsLayer; ErrorHandler] /\
  repliedBy (respond s req) = ErrorHandler /\
  status (response (respond s req)) = fst (translated e) /\
  body (response (respond s req)) = snd (translated e).
Proof.
  intros H. rewrite respond_unfold, H. repeat split.
Qed.

(** C5 (amended): the origin callback is a function of the request's
    origin and the allowed origins, and the stack consults it in one layer.
    It allows a request without an Origin
    header, and one whose Origin header is empty; it allows a request whose
    origin is in the allowed set, and the response then announces
    credentials support; it refuses a request whose origin is not empty and
    not in the set with an error that the error handler answers (status
    500, the generic [error] text), straight after the CORS layer. *)
Theorem C5_origin_policy s req :
  List.filter (fun l => bool_decide (l = CorsLayer))
    (map label
       (app (LimiterState := LimiterState) corsOrigin nodeEnv helmetHeaders
          securityHeaders generalLimiter uploadLimiter apiLimiter routes
          toISOString)) = [CorsLayer] /\
  (origin req = None ->
     Cors.originCallback allowed (origin req) = inr true) /\
  (origin req = Some EmptyString ->
     Cors.originCallback allowed (origin req) = inr true) /\
  (forall o, origin req = Some o -> In o allowed ->
     Cors.originCallback allowed (origin req) = inr true /\
     In ("Access-Control-Allow-Credentials", "true")
        (headers (response (respond s req)))) /\
  (forall o, origin req = Some o -> o <> EmptyString -> ~ In o allowed ->
     Cors.originCallback allowed (origin req) = inl Cors.notAllowed /\
     visited (respond s req) =
       [Helmet; SecurityHeaders; CorsLayer; ErrorHandler] /\
     repliedBy (respond s req) = ErrorHandler /\
     status (response (respond s req)) = 500 /\
     field "error" (body (response (respond s req))) =
       Some ErrorTranslator.unexpectedText).
Proof.
  split; [reflexivity|].
  split; [intros ->; reflexivity|].
  split; [intros ->; reflexivity|].
  split.
  - intros o Ho Hin. rewrite Ho.
    pose proof (originCallback_listed allowed o Hin) as Hcb.
    split; [exact Hcb|].
    rewrite respond_headers, Ho, Hcb.
    destruct (bool_decide (method req = OPTIONS)).
    + apply In_setHeaders; [|apply credentials_announced].
      simpl. intros [H|[H|[]]]; discriminate.
    + apply credentials_announced.
  - intros o Ho Hne Hout. rewrite Ho.
    pose proof (originCallback_unlisted allowed o Hne Hout) as Hcb.
    split; [exact Hcb|].
    rewrite <- Ho in Hcb.
    destruct (respond_refused s req Cors.notAllowed Hcb)
      as [Hv [Hr [Hs Hb]]].
    split; [exact Hv|]. split; [exact Hr|].
    rewrite Hs, Hb, ErrorTranslatorProps.handler_by_class.
    split; reflexivity.
Qed.

(** *** The limiters *)

Lemma not_under_api req (g : RouteGroup) :
  mounted "/api/" (path req) = false ->
  mounted (mountPath g) (path req) = false.
Proof.
  intros Hapi. destruct (mounted (mountPath g) (path req)) eqn:Hg;
    [|reflexivity].
  apply PathProps.mounted_api_of_group in Hg. congruence.
Qed.

(** Behind CORS: a request under /api/ that reaches a layer behind the
    limiters was passed by the general limiter, and by the limiter of its
    own class on the state the general limiter left. *)
Lemma limiters_guard req c :
  existsb downstream (visited (dispatch inner None req c)) = true ->
  (mounted "/api/" (path req) = true ->
     fst (generalLimiter (limiters c) req) = Pass) /\
  (mounted "/api/upload" (path req) = true ->
     fst (uploadLimiter (snd (generalLimiter (limiters c) req)) req) = Pass) /\
  (mounted "/api/summarize" (path req) = true ->
     fst (apiLimiter (snd (generalLimiter (limiters c) req)) req) = Pass) /\
  (mounted "/api/pdf" (path req) = true ->
     fst (apiLimiter (snd (generalLimiter (limiters c) req)) req) = Pass).
Proof.
  unfold limiterLayers. cbn [List.app]. rewrite run_limiter.
  destruct (mounted "/api/" (path req)) eqn:Hapi.
  - destruct (generalLimiter (limiters c) req) as [[|status b] s1];
      cbn [fst snd visit visited finish existsb downstream orb];
      [|discriminate].
    intros Hdown. split; [reflexivity|].
    split; [|split].
    + intros Hup. rewrite run_limiter, Hup in Hdown. cbn [limiters] in Hdown.
      destruct (uploadLimiter s1 req) as [[|status b] s2];
        [reflexivity | discriminate].
    + intros Hsum.
      assert (Hup : mounted "/api/upload" (path req) = false).
      { destruct (mounted "/api/upload" (path req)) eqn:Hup; [|reflexivity].
        pose proof (PathProps.mounted_one_group UploadRoutes SummarizeRoutes
                      (path req) Hup Hsum). discriminate. }
      rewrite run_limiter, Hup, run_limiter, Hsum in Hdown.
      cbn [limiters] in Hdown.
      destruct (apiLimiter s1 req) as [[|status b] s2];
        [reflexivity | discriminate].
    + intros Hpdf.
      assert (Hup : mounted "/api/upload" (path req) = false).
      { destruct (mounted "/api/upload" (path req)) eqn:Hup; [|reflexivity].
        pose proof (PathProps.mounted_one_group UploadRoutes PdfRoutes
                      (path req) Hup Hpdf). discriminate. }
      assert (Hsum : mounted "/api/summarize" (path req) = false).
      { destruct (mounted "/api/summarize" (path req)) eqn:Hsum; [|reflexivity].
        pose proof (PathProps.mounted_one_group SummarizeRoutes PdfRoutes
                      (path req) Hsum Hpdf). discriminate. }
      rewrite run_limiter, Hup, run_limiter, Hsum, run_limiter, Hpdf in Hdown.
      cbn [limiters] in Hdown.
      destruct (apiLimiter s1 req) as [[|status b] s2];
        [reflexivity | discriminate].
  - intros _. split; [discriminate|].
    pose proof (not_under_api req UploadRoutes Hapi) as Hup.
    pose proof (not_under_api req SummarizeRoutes Hapi) as Hsum.
    pose proof (not_under_api req PdfRoutes Hapi) as Hpdf.
    cbn [mountPath] in Hup, Hsum, Hpdf. rewrite Hup, Hsum, Hpdf.
    repeat split; discriminate.
Qed.

(** C10: a request under /api/ reaches a layer behind the limiters (the
    body parsers, a route group, the health check, the 404 handler) only if
    the general limiter passed it; every route group and the health check
    are under /api/; and a request under /api/upload, /api/summarize or
    /api/pdf must also be passed by the upload limiter, respectively the
    API limiter, consulted after the general one on the state it left. *)
Theorem C10_limiters_stack s req :
  existsb downstream (visited (respond s req)) = true ->
  (mounted "/api/" (path req) = true ->
     fst (generalLimiter s req) = Pass) /\
  (forall g, mounted (mountPath g) (path req) = true ->
     fst (generalLimiter s req) = Pass) /\
  (isHealth req = true -> fst (generalLimiter s req) = Pass) /\
  (mounted "/api/upload" (path req) = true ->
     fst (uploadLimiter (snd (generalLimiter s req)) req) = Pass) /\
  (mounted "/api/summarize" (path req) = true ->
     fst (apiLimiter (snd (generalLimiter s req)) req) = Pass) /\
  (mounted "/api/pdf" (path req) = true ->
     fst (apiLimiter (snd (generalLimiter s req)) req) = Pass).
Proof.
  intros Hdown.
  assert (Hguard :
    (mounted "/api/" (path req) = true -> fst (generalLimiter s req) = Pass) /\
    (mounted "/api/upload" (path req) = true ->
       fst (uploadLimiter (snd (generalLimiter s req)) req) = Pass) /\
    (mounted "/api/summarize" (path req) = true ->
       fst (apiLimiter (snd (generalLimiter s req)) req) = Pass) /\
    (mounted "/api/pdf" (path req) = true ->
       fst (apiLimiter (snd (generalLimiter s req)) req) = Pass)).
  { rewrite respond_unfold in Hdown.
    destruct (Cors.originCallback allowed (origin req)) as [e|[|]].
    - discriminate.
    - destruct (bool_decide (method req = OPTIONS)); [discriminate|].
      cbn [visit visited existsb downstream orb] in Hdown.
      apply limiters_guard in Hdown. exact Hdown.
    - cbn [visit visited existsb downstream orb] in Hdown.
      apply limiters_guard in Hdown. exact Hdown. }
  destruct Hguard as [Hgeneral [Hup [Hsum Hpdf]]].
  split; [exact Hgeneral|].
  split.
  { intros g Hg. apply Hgeneral.
    apply (PathProps.mounted_api_of_group g). exact Hg. }
  split.
  { intros Hh. apply Hgeneral. unfold isHealth in Hh.
    apply andb_prop in Hh as [_ Hh].
    apply PathProps.mounted_api_of_health. exact Hh. }
  repeat split; assumption.
Qed.

(** *** Properties carried through a layer *)

(** [Q] holds behind a layer that does not decide it, if it holds of the
    layer's own reply and of whatever the rest of the stack does. *)
Lemma step_use (Q : Result LimiterState -> Prop) (l : Label) applies h
    (rest : list (Layer LimiterState)) req :
  (forall r, Q r -> Q (visit l r)) ->
  (forall c status b, Q (finish l c status b)) ->
  (forall c, Q (dispatch rest None req c)) ->
  (forall e c, Q (dispatch rest (Some e) req c)) ->
  forall c, Q (dispatch (Use l applies h :: rest) None req c).
Proof.
  intros Hvisit Hfinish Hrest Herr c. rewrite dispatch_use.
  destruct (applies req); [|apply Hrest].
  destruct (h req c); simpl; auto.
Qed.

(** [Q] holds behind the limiters if it holds of a limiter's reply, of the
    error handler's reply and of what the layers behind them do. *)
Lemma through_limiters (Q : Result LimiterState -> Prop) req :
  (forall l r, handler l = false -> Q r -> Q (visit l r)) ->
  (forall l c status b, handler l = false -> l <> NotFound ->
                        Q (finish l c status b)) ->
  (forall c, Q (dispatch behindLimiters None req c)) ->
  forall c, Q (dispatch inner None req c).
Proof.
  intros Hvisit Hfinish Hbehind.
  assert (Herr : forall e c, Q (dispatch behindLimiters (Some e) req c)).
  { intros e c. rewrite pending_behindLimiters.
    apply Hfinish; [reflexivity | discriminate]. }
  unfold limiterLayers. cbn [List.app].
  do 4 (apply step_use;
          [ intros r Hr; apply Hvisit; [reflexivity | exact Hr]
          | intros c status b; apply Hfinish; [reflexivity | discriminate]
          |
          | intros e c; rewrite ?dispatch_use_pending; apply Herr ]).
  exact Hbehind.
Qed.

(** [Q] holds of every response if it holds of the replies of the CORS
    layer, of a limiter and of the error handler, and of what the layers
    behind the limiters do. *)
Lemma through_admission (Q : Result LimiterState -> Prop) s req :
  (forall l r, handler l = false -> Q r -> Q (visit l r)) ->
  (forall l c status b, handler l = false -> l <> NotFound ->
                        Q (finish l c status b)) ->
  (forall c, Q (dispatch behindLimiters None req c)) ->
  Q (respond s req).
Proof.
  intros Hvisit Hfinish Hbehind. rewrite respond_unfold.
  do 2 (apply Hvisit; [reflexivity|]).
  destruct (Cors.originCallback allowed (origin req)) as [e|[|]].
  - apply Hvisit; [reflexivity|]. apply Hfinish; [reflexivity|discriminate].
  - destruct (bool_decide (method req = OPTIONS)).
    + apply Hfinish; [reflexivity|discriminate].
    + apply Hvisit; [reflexivity|]. apply through_limiters; assumption.
  - apply Hvisit; [reflexivity|]. apply through_limiters; assumption.
Qed.

(** *** The body parsers *)

Lemma tooLarge_spec (n : Z) :
  BodyParser.tooLarge n = (n >? 10 * 1024 * 1024).
Proof. reflexivity. Qed.

(** An over-long JSON or form-encoded body that reaches the parsers is
    refused there: the error handler answers, no endpoint runs. *)
Lemma oversized_refused req c :
  contentType req = JsonBody \/ contentType req = UrlencodedBody ->
  BodyParser.tooLarge (bodyLength req) = true ->
  repliedBy (dispatch behindLimiters None req c) = ErrorHandler /\
  status (response (dispatch behindLimiters None req c)) = 500 /\
  body (response (dispatch behindLimiters None req c)) =
    snd (translated BodyParser.entityTooLarge) /\
  forallb (fun l => negb (handler l))
    (visited (dispatch behindLimiters None req c)) = true.
Proof.
  intros Htype Hlong.
  assert (Hfail : bodyFailure req = Some BodyParser.entityTooLarge).
  { unfold bodyFailure. rewrite Hlong. reflexivity. }
  assert (Hstatus : fst (translated BodyParser.entityTooLarge) = 500).
  { rewrite ErrorTranslatorProps.handler_by_class. reflexivity. }
  unfold parserLayers, routeLayers, livenessLayers, terminalLayers.
  cbn [List.app]. rewrite run_parser, Hfail.
  destruct Htype as [Ht|Ht].
  - rewrite Ht, bool_decide_eq_true_2 by reflexivity.
    skip_to_errorHandler. rewrite <- Hstatus. repeat split.
  - rewrite Ht, bool_decide_eq_false_2 by discriminate.
    rewrite run_parser, Hfail, Ht, bool_decide_eq_true_2 by reflexivity.
    skip_to_errorHandler. rewrite <- Hstatus. repeat split.
Qed.

(** A body that is not too long and that parses is handed on. *)
Lemma parser_hands_on (l : Label) (accepts : ContentType)
    (rest : list (Layer LimiterState)) req c :
  bodyLength req <= 10 * 1024 * 1024 ->
  bodyError req = None ->
  dispatch (Use l always (parserLayer accepts) :: rest) None req c =
  visit l (dispatch rest None req c).
Proof.
  intros Hlen Herr. rewrite run_parser.
  assert (Hok : bodyFailure req = None).
  { unfold bodyFailure. rewrite tooLarge_spec, Herr.
    destruct (Z.gtb_spec (bodyLength req) (10 * 1024 * 1024)); [lia|].
    reflexivity. }
  rewrite Hok. destruct (bool_decide (contentType req = accepts)); reflexivity.
Qed.

(** C7: the limit of both body parsers is 10*1024*1024 bytes.  A JSON or
    form-encoded body of exactly that length is not refused for its size,
    and the parser hands the request on when the content parses; a body of
    one byte more, or of any greater length, is refused: whatever the
    request, no route group, liveness endpoint or 404 handler runs, and a
    request that reaches the parsers is answered by the error handler. *)
Theorem C7_body_size_limit s req :
  BodyParser.limit = Some (10 * 1024 * 1024) /\
  BodyParser.tooLarge (10 * 1024 * 1024) = false /\
  BodyParser.tooLarge (10 * 1024 * 1024 + 1) = true /\
  (forall n, BodyParser.tooLarge n = true <-> 10 * 1024 * 1024 < n) /\
  (bodyLength req = 10 * 1024 * 1024 -> bodyError req = None ->
   forall l accepts rest c,
     dispatch (Use l always (parserLayer accepts) :: rest) None req c =
     visit l (dispatch rest None req c)) /\
  (contentType req = JsonBody \/ contentType req = UrlencodedBody ->
   10 * 1024 * 1024 < bodyLength req ->
   forallb (fun l => negb (handler l)) (visited (respond s req)) = true /\
   forall c,
     repliedBy (dispatch behindLimiters None req c) = ErrorHandler /\
     status (response (dispatch behindLimiters None req c)) = 500).
Proof.
  assert (Hspec : forall n, BodyParser.tooLarge n = true <->
                            10 * 1024 * 1024 < n).
  { intros n. rewrite tooLarge_spec.
    destruct (Z.gtb_spec n (10 * 1024 * 1024)); split; (congruence || lia). }
  split; [reflexivity|]. split; [reflexivity|]. split; [reflexivity|].
  split; [exact Hspec|]. split.
  - intros Hlen Herr l accepts rest c. apply parser_hands_on; [lia|exact Herr].
  - intros Htype Hlong. apply Hspec in Hlong. split.
    + apply (through_admission
               (fun r => forallb (fun l => negb (handler l)) (visited r) = true)).
      * intros l r Hl Hr. cbn [visit visited forallb]. rewrite Hl, Hr.
        reflexivity.
      * intros l c status b Hl _. cbn [finish visited forallb]. rewrite Hl.
        reflexivity.
      * intros c. apply (oversized_refused req c Htype Hlong).
    + intros c. destruct (oversized_refused req c Htype Hlong)
        as [Hr [Hs _]]. split; assumption.
Qed.

(** *** The 404 handler *)

Lemma routeLayers_map :
  routeLayers (LimiterState := LimiterState) routes =
  map (mountRoute routes) routeGroups.
Proof. reflexivity. Qed.

Lemma routeGroups_all (g : RouteGroup) : In g routeGroups.
Proof. destruct g; simpl; tauto. Qed.

Lemma unmatched_groups req :
  matched req = false ->
  Forall (fun g => mounted (mountPath g) (path req) = false) routeGroups /\
  isHealth req = false /\ isRoot req = false.
Proof.
  unfold matched. intros H.
  apply orb_false_elim in H as [H Hroot].
  apply orb_false_elim in H as [Hgroups Hhealth].
  split; [|split; assumption].
  apply List.Forall_forall. intros g Hg.
  destruct (mounted (mountPath g) (path req)) eqn:Hm; [|reflexivity].
  assert (Hex : existsb (fun g => mounted (mountPath g) (path req))
                  routeGroups = true).
  { apply existsb_exists. exists g. split; assumption. }
  congruence.
Qed.

(** Route groups that do not match are skipped. *)
Lemma routes_skipped (gs : list RouteGroup)
    (rest : list (Layer LimiterState)) req c :
  Forall (fun g => mounted (mountPath g) (path req) = false) gs ->
  dispatch (map (mountRoute routes) gs ++ rest) None req c =
  dispatch rest None req c.
Proof.
  induction 1 as [|g gs Hg Hgs IH]; [reflexivity|].
  cbn [map List.app]. rewrite run_route, Hg. exact IH.
Qed.

(** Behind the limiters, a request whose body the parsers accept and that
    matches nothing ends at the 404 handler. *)
Lemma unmatched_not_found req c :
  (contentType req = JsonBody \/ contentType req = UrlencodedBody ->
   bodyFailure req = None) ->
  matched req = false ->
  dispatch behindLimiters None req c =
  visit JsonParser (visit UrlencodedParser
    (finish NotFound c 404 (Json [("error", "Endpoint not found")]))).
Proof.
  intros Hbody Hmatch.
  destruct (unmatched_groups req Hmatch) as [Hgroups [Hhealth Hroot]].
  assert (Hparse : forall l accepts rest,
            accepts = JsonBody \/ accepts = UrlencodedBody ->
            dispatch (Use l always (parserLayer accepts) :: rest) None req c =
            visit l (dispatch rest None req c)).
  { intros l accepts rest Hacc. rewrite run_parser.
    destruct (bool_decide (contentType req = accepts)) eqn:Hct;
      [|reflexivity].
    apply bool_decide_eq_true in Hct. rewrite Hbody; [reflexivity|].
    rewrite Hct. exact Hacc. }
  unfold parserLayers. cbn [List.app].
  rewrite !Hparse by tauto.
  rewrite routeLayers_map, (routes_skipped _ _ _ _ Hgroups).
  unfold livenessLayers, terminalLayers. cbn [List.app].
  rewrite !dispatch_use, Hhealth, Hroot, dispatch_err, run_notFound.
  reflexivity.
Qed.

(** The limiters hand a request on when the general limiter passes it and
    no limiter of a class applies. *)
Lemma limiters_passed req c :
  (mounted "/api/" (path req) = true ->
   fst (generalLimiter (limiters c) req) = Pass) ->
  matched req = false ->
  exists c', resHeaders c' = resHeaders c /\
    (dispatch inner None req c = dispatch behindLimiters None req c' \/
     dispatch inner None req c =
       visit GeneralLimiter (dispatch behindLimiters None req c')).
Proof.
  intros Hgeneral Hmatch.
  destruct (unmatched_groups req Hmatch) as [Hgroups _].
  rewrite List.Forall_forall in Hgroups.
  pose proof (Hgroups UploadRoutes (routeGroups_all _)) as Hup.
  pose proof (Hgroups SummarizeRoutes (routeGroups_all _)) as Hsum.
  pose proof (Hgroups PdfRoutes (routeGroups_all _)) as Hpdf.
  cbn [mountPath] in Hup, Hsum, Hpdf.
  unfold limiterLayers. cbn [List.app].
  rewrite run_limiter.
  destruct (mounted "/api/" (path req)) eqn:Hapi.
  - rewrite (Hgeneral eq_refl).
    rewrite !run_limiter, Hup, Hsum, Hpdf.
    eexists. split; [|right; reflexivity]. reflexivity.
  - rewrite !run_limiter, Hup, Hsum, Hpdf.
    exists c. split; [reflexivity | left; reflexivity].
Qed.

(** Route groups: if the 404 handler replied, every matching group had
    passed the request on. *)
Lemma routes_replier (gs : list RouteGroup)
    (rest : list (Layer LimiterState)) req (P : Prop) :
  (forall c, repliedBy (dispatch rest None req c) = NotFound -> P) ->
  (forall e c, repliedBy (dispatch rest (Some e) req c) <> NotFound) ->
  forall c,
    repliedBy (dispatch (map (mountRoute routes) gs ++ rest) None req c)
      = NotFound ->
    P /\ Forall (fun g => mounted (mountPath g) (path req) = true ->
                          routes g req = PassOn) gs.
Proof.
  intros Hrest Herr. induction gs as [|g gs IH]; intros c H.
  - split; [apply (Hrest c); exact H | constructor].
  - cbn [map List.app] in H. rewrite run_route in H.
    destruct (mounted (mountPath g) (path req)) eqn:Hg.
    + destruct (routes g req) as [status b| |e] eqn:Hr.
      * discriminate.
      * cbn [visit repliedBy] in H. destruct (IH c H) as [HP Hgs].
        split; [exact HP|]. constructor; [intros _; exact Hr | exact Hgs].
      * cbn [visit repliedBy] in H. exfalso.
        rewrite pending_uses in H.
        -- exact (Herr e c H).
        -- clear. induction gs; [reflexivity | assumption].
    + destruct (IH c H) as [HP Hgs].
      split; [exact HP|]. constructor; [congruence | exact Hgs].
Qed.

(** The 404 handler replies only when no route group that matches and no
    liveness endpoint took the request. *)
Lemma notFound_only_unclaimed s req :
  repliedBy (respond s req) = NotFound ->
  (forall g, mounted (mountPath g) (path req) = true ->
             routes g req = PassOn) /\
  isHealth req = false /\ isRoot req = false.
Proof.
  apply (through_admission
           (fun r => repliedBy r = NotFound ->
              (forall g, mounted (mountPath g) (path req) = true ->
                         routes g req = PassOn) /\
              isHealth req = false /\ isRoot req = false)).
  - intros l r _ Hr. exact Hr.
  - intros l c status b _ Hl H. cbn [finish repliedBy] in H. congruence.
  - intros c. unfold parserLayers. cbn [List.app].
    assert (Herr : forall e c',
              repliedBy (dispatch (livenessLayers toISOString
                                   ++ terminalLayers nodeEnv)
                           (Some e) req c') <> NotFound).
    { intros e c'. unfold livenessLayers, terminalLayers. cbn [List.app].
      skip_to_errorHandler. discriminate. }
    assert (Hlive : forall c',
              repliedBy (dispatch (livenessLayers toISOString
                                   ++ terminalLayers nodeEnv)
                           None req c') = NotFound ->
              isHealth req = false /\ isRoot req = false).
    { intros c'. unfold livenessLayers, terminalLayers. cbn [List.app].
      rewrite !dispatch_use.
      destruct (isHealth req); [discriminate|].
      destruct (isRoot req); [discriminate|]. tauto. }
    assert (Hroutes : forall c',
              repliedBy (dispatch (routeLayers routes
                                   ++ livenessLayers toISOString
                                   ++ terminalLayers nodeEnv)
                           None req c') = NotFound ->
              (forall g, mounted (mountPath g) (path req) = true ->
                         routes g req = PassOn) /\
              isHealth req = false /\ isRoot req = false).
    { intros c' H. rewrite routeLayers_map in H.
      destruct (routes_replier routeGroups _ req _ Hlive Herr c' H)
        as [HP Hgs].
      split; [|exact HP]. intros g. rewrite List.Forall_forall in Hgs.
      apply Hgs. apply routeGroups_all. }
    assert (Herr' : forall e c',
              repliedBy (dispatch (routeLayers routes
                                   ++ livenessLayers toISOString
                                   ++ terminalLayers nodeEnv)
                           (Some e) req c') <> NotFound).
    { intros e c'. unfold routeLayers, livenessLayers, terminalLayers.
      cbn [List.app]. skip_to_errorHandler. discriminate. }
    rewrite !run_parser.
    repeat match goal with
           | |- context [if ?b then _ else _] => destruct b
           | |- context [match bodyFailure req with _ => _ end] =>
               destruct (bodyFailure req)
           end;
      cbn [visit repliedBy];
      first [ apply Hroutes
            | intros H; exfalso; revert H;
              rewrite ?dispatch_use_pending; apply Herr' ].
Qed.

(** C8 (amended): a request that the origin callback allows, that is not
    an OPTIONS request, that the general limiter passes when its path is
    under /api/, whose body the parsers accept, and whose method and path
    match no route group and neither liveness endpoint is answered by the
    404 handler with status 404 and the body {error: "Endpoint not found"}.
    The 404 handler is the last layer of the stack, and it replies only
    when every route group that matches passed the request on and no
    liveness endpoint matches. *)
Theorem C8_unmatched_not_found s req :
  Cors.originCallback allowed (origin req) = inr true ->
  method req <> OPTIONS ->
  (mounted "/api/" (path req) = true -> fst (generalLimiter s req) = Pass) ->
  (contentType req = JsonBody \/ contentType req = UrlencodedBody ->
   bodyFailure req = None) ->
  matched req = false ->
  status (response (respond s req)) = 404 /\
  body (response (respond s req)) = Json [("error", "Endpoint not found")] /\
  repliedBy (respond s req) = NotFound /\
  List.last
    (map label
       (app (LimiterState := LimiterState) corsOrigin nodeEnv helmetHeaders
          securityHeaders generalLimiter uploadLimiter apiLimiter routes
          toISOString))
    FinalHandler = NotFound /\
  (forall s' req',
     repliedBy (respond s' req') = NotFound ->
     (forall g, mounted (mountPath g) (path req') = true ->
                routes g req' = PassOn) /\
     isHealth req' = false /\ isRoot req' = false).
Proof.
  intros Hcors Hmethod Hgeneral Hbody Hmatch.
  assert (Hrun : status (response (respond s req)) = 404 /\
                 body (response (respond s req)) =
                   Json [("error", "Endpoint not found")] /\
                 repliedBy (respond s req) = NotFound).
  { rewrite respond_unfold, Hcors, bool_decide_eq_false_2 by exact Hmethod.
    destruct (limiters_passed req
                (withHeaders (Cors.corsHeaders (origin req))
                   (withHeaders securityHeaders
                      (withHeaders helmetHeaders
                         {| resHeaders := []; limiters := s |})))
                Hgeneral Hmatch) as [c' [_ [Heq|Heq]]];
      rewrite Heq, (unmatched_not_found req c' Hbody Hmatch);
      repeat split. }
  destruct Hrun as [Hstatus [Hbodyv Hreplier]].
  split; [exact Hstatus|]. split; [exact Hbodyv|]. split; [exact Hreplier|].
  split; [reflexivity|].
  intros s' req'. apply notFound_only_unclaimed.
Qed.

(** *** Which layers run, and which one answers *)

(** The layers that ran are layers of the stack, in its order, followed by
    Express's default handler when no layer replied. *)
Lemma visited_sublist (stack : list (Layer LimiterState))
    (pending : option Failure.t) req c :
  (repliedBy (dispatch stack pending req c) = FinalHandler /\
   exists v, visited (dispatch stack pending req c)
               = (v ++ [FinalHandler])%list /\
             sublist v (map label stack)) \/
  sublist (visited (dispatch stack pending req c)) (map label stack).
Proof.
  revert pending c. induction stack as [|layer rest IH]; intros pending c.
  - left. destruct pending; (split; [reflexivity|]); exists [];
      split; reflexivity.
  - assert (Hskip : forall p c',
              (repliedBy (dispatch rest p req c') = FinalHandler /\
               exists v, visited (dispatch rest p req c')
                           = (v ++ [FinalHandler])%list
                         /\ sublist v (label layer :: map label rest)) \/
              sublist (visited (dispatch rest p req c'))
                      (label layer :: map label rest)).
    { intros p c'. destruct (IH p c') as [[Hr [v [Hv Hs]]]|Hs].
      - left. split; [exact Hr|]. exists v. split; [exact Hv|].
        apply sublist_cons, Hs.
      - right. apply sublist_cons, Hs. }
    assert (Hvisit : forall p c',
              (repliedBy (visit (label layer) (dispatch rest p req c'))
                 = FinalHandler /\
               exists v, visited (visit (label layer) (dispatch rest p req c'))
                           = (v ++ [FinalHandler])%list
                         /\ sublist v (label layer :: map label rest)) \/
              sublist (visited (visit (label layer) (dispatch rest p req c')))
                      (label layer :: map label rest)).
    { intros p c'. cbn [visit visited repliedBy].
      destruct (IH p c') as [[Hr [v [Hv Hs]]]|Hs].
      - left. split; [exact Hr|]. exists (label layer :: v).
        split; [rewrite Hv; reflexivity|]. apply sublist_skip, Hs.
      - right. apply sublist_skip, Hs. }
    destruct layer as [l applies h | l h]; cbn [map label] in *.
    + destruct pending as [e|]; [apply Hskip|].
      rewrite dispatch_use. destruct (applies req); [|apply Hskip].
      destruct (h req c); cbn [continueWith]; try apply Hvisit.
      right. apply sublist_skip, sublist_nil_l.
    + destruct pending as [e|]; [|apply Hskip].
      rewrite dispatch_err_pending.
      destruct (h e req c); cbn [continueWith]; try apply Hvisit.
      right. apply sublist_skip, sublist_nil_l.
Qed.

(** An ordinary layer that ran is one whose path matched the request. *)
Lemma visited_applies (stack : list (Layer LimiterState))
    (pending : option Failure.t) req c (l : Label) :
  In l (visited (dispatch stack pending req c)) ->
  l = FinalHandler \/
  exists layer, In layer stack /\ label layer = l /\
                (isUse layer = true -> appliesTo req layer = true).
Proof.
  revert pending c. induction stack as [|layer rest IH]; intros pending c Hin.
  - left. destruct pending; destruct Hin as [H|[]]; symmetry; exact H.
  - assert (Hlater : forall p c', In l (visited (dispatch rest p req c')) ->
              l = FinalHandler \/
              exists layer', In layer' (layer :: rest) /\ label layer' = l /\
                (isUse layer' = true -> appliesTo req layer' = true)).
    { intros p c' H. destruct (IH p c' H) as [Hf|[layer' [H1 H2]]];
        [left; exact Hf | right; exists layer'; split; [right; exact H1|exact H2]]. }
    destruct layer as [l0 applies h | l0 h].
    + destruct pending as [e|]; [apply (Hlater _ _ Hin)|].
      rewrite dispatch_use in Hin. destruct (applies req) eqn:Happ;
        [|apply (Hlater _ _ Hin)].
      assert (Hhere : l0 = l ->
                l = FinalHandler \/
                exists layer', In layer' (Use l0 applies h :: rest) /\
                  label layer' = l /\
                  (isUse layer' = true -> appliesTo req layer' = true)).
      { intros Heq. right. exists (Use l0 applies h).
        split; [left; reflexivity|]. split; [exact Heq|]. intros _. exact Happ. }
      destruct (h req c); cbn [continueWith visit finish visited] in Hin;
        destruct Hin as [Heq|Hin]; auto; try (apply (Hlater _ _ Hin)).
      destruct Hin.
    + destruct pending as [e|]; [|apply (Hlater _ _ Hin)].
      rewrite dispatch_err_pending in Hin.
      assert (Hhere : l0 = l ->
                l = FinalHandler \/
                exists layer', In layer' (UseErr l0 h :: rest) /\
                  label layer' = l /\
                  (isUse layer' = true -> appliesTo req layer' = true)).
      { intros Heq. right. exists (UseErr l0 h).
        split; [left; reflexivity|]. split; [exact Heq|]. discriminate. }
      destruct (h e req c); cbn [continueWith visit finish visited] in Hin;
        destruct Hin as [Heq|Hin]; auto; try (apply (Hlater _ _ Hin)).
      destruct Hin.
Qed.

(** The response is a reply of the layer that sent it. *)
Lemma dispatch_answers (R : Label -> Z -> Body -> Prop) req
    (stack : list (Layer LimiterState)) :
  Forall (answers R req) stack ->
  forall (pending : option Failure.t) c,
    repliedBy (dispatch stack pending req c) = FinalHandler \/
    R (repliedBy (dispatch stack pending req c))
      (status (response (dispatch stack pending req c)))
      (body (response (dispatch stack pending req c))).
Proof.
  induction 1 as [|layer rest Hlayer Hrest IH]; intros pending c.
  - left. destruct pending; reflexivity.
  - destruct layer as [l applies h | l h]; simpl in Hlayer.
    + destruct pending as [e|]; [apply IH|].
      rewrite dispatch_use. destruct (applies req) eqn:Happ; [|apply IH].
      destruct (h req c) as [c'|c' e|c' st b] eqn:Hh;
        cbn [continueWith visit finish repliedBy response status body];
        try apply IH.
      right. apply (Hlayer c c' st b eq_refl Hh).
    + destruct pending as [e|]; [|apply IH].
      rewrite dispatch_err_pending.
      destruct (h e req c) as [c'|c' e'|c' st b] eqn:Hh;
        cbn [continueWith visit finish repliedBy response status body];
        try apply IH.
      right. apply (Hlayer e c c' st b Hh).
Qed.

(** A stack that ends with the error handler and the 404 handler never
    falls through to Express's default handler. *)
Lemma terminal_replies (stack : list (Layer LimiterState)) :
  Forall (fun layer => label layer <> FinalHandler) stack ->
  forall (pending : option Failure.t) req c,
    repliedBy (dispatch (stack ++ terminalLayers nodeEnv) pending req c)
    <> FinalHandler.
Proof.
  induction 1 as [|layer rest Hlayer Hrest IH]; intros pending req c.
  - unfold terminalLayers. cbn [List.app].
    destruct pending as [e|].
    + rewrite run_errorHandler. discriminate.
    + rewrite dispatch_err, run_notFound. discriminate.
  - cbn [List.app]. destruct layer as [l applies h | l h]; simpl in Hlayer.
    + destruct pending as [e|]; [apply IH|].
      rewrite dispatch_use. destruct (applies req); [|apply IH].
      destruct (h req c); cbn [continueWith visit finish repliedBy];
        try apply IH. exact Hlayer.
    + destruct pending as [e|]; [|apply IH].
      rewrite dispatch_err_pending.
      destruct (h e req c); cbn [continueWith visit finish repliedBy];
        try apply IH. exact Hlayer.
Qed.

Lemma respond_never_default s req : repliedBy (respond s req) <> FinalHandler.
Proof.
  unfold handle, app. rewrite !app_assoc. apply terminal_replies.
  unfold securityLayers, limiterLayers, parserLayers, routeLayers,
    livenessLayers, mountRoute. cbn [List.app].
  repeat constructor; discriminate.
Qed.



(** A route group runs only for the paths under its mount path. *)
Lemma route_visited_mounted s req (g : RouteGroup) :
  In (Route g) (visited (respond s req)) ->
  mounted (mountPath g) (path req) = true.
Proof.
  intros Hin.
  destruct (visited_applies _ _ _ _ _ Hin) as [Hf|[layer [Hl [Hlab Happ]]]];
    [discriminate|].
  unfold app, securityLayers, limiterLayers, parserLayers, routeLayers,
    livenessLayers, terminalLayers, mountRoute in Hl. cbn [List.app] in Hl.
  repeat (destruct Hl as [Hl|Hl];
          [ subst layer; cbn in Hlab; try discriminate Hlab;
            injection Hlab as <-; exact (Happ eq_refl) | ]).
  destruct Hl.
Qed.

(** *** The state of the limiters *)

Lemma behindLimiters_keepsLimiters :
  Forall (keepsLimiters (LimiterState := LimiterState)) behindLimiters.
Proof.
  unfold parserLayers, routeLayers, livenessLayers, terminalLayers,
    mountRoute. cbn [List.app].
  repeat constructor; simpl; intros;
    unfold parserLayer, routeLayer, health, root, errorLayer, notFound;
    repeat match goal with
           | |- context [let (_, _) := ?x in _] => destruct x
           | |- context [match ?x with _ => _ end] => destruct x
           end; reflexivity.
Qed.

Lemma dispatch_keepsLimiters (stack : list (Layer LimiterState)) :
  Forall keepsLimiters stack ->
  forall (pending : option Failure.t) req c,
    finalState (dispatch stack pending req c) = limiters c.
Proof.
  induction 1 as [|layer rest Hlayer Hrest IH]; intros pending req c.
  - destruct pending; reflexivity.
  - destruct layer as [l applies h | l h]; simpl in Hlayer.
    + destruct pending as [e|]; [apply IH|].
      rewrite dispatch_use. destruct (applies req); [|apply IH].
      specialize (Hlayer req c).
      destruct (h req c); cbn [continueWith visit finish finalState ctxOf] in *;
        rewrite ?IH; exact Hlayer.
    + destruct pending as [e|]; [|apply IH].
      rewrite dispatch_err_pending. specialize (Hlayer e req c).
      destruct (h e req c);
        cbn [continueWith visit finish finalState ctxOf] in *;
        rewrite ?IH; exact Hlayer.
Qed.

Lemma behindLimiters_state (pending : option Failure.t) req c :
  finalState (dispatch behindLimiters pending req c) = limiters c.
Proof. apply dispatch_keepsLimiters, behindLimiters_keepsLimiters. Qed.

Lemma other_group_unmounted req (g g' : RouteGroup) :
  mounted (mountPath g) (path req) = true -> g' <> g ->
  mounted (mountPath g') (path req) = false.
Proof.
  intros Hg Hne. destruct (mounted (mountPath g') (path req)) eqn:Hg';
    [|reflexivity].
  exfalso. apply Hne. exact (PathProps.mounted_one_group g' g _ Hg' Hg).
Qed.

(** Behind CORS, the state the limiters are left in. *)
Lemma inner_state req c :
  finalState (dispatch inner None req c) =
  if mounted "/api/" (path req)
  then match fst (generalLimiter (limiters c) req) with
       | Limited _ _ => snd (generalLimiter (limiters c) req)
       | Pass =>
           if mounted "/api/upload" (path req)
           then snd (uploadLimiter (snd (generalLimiter (limiters c) req)) req)
           else if mounted "/api/summarize" (path req)
                || mounted "/api/pdf" (path req)
           then snd (apiLimiter (snd (generalLimiter (limiters c) req)) req)
           else snd (generalLimiter (limiters c) req)
       end
  else limiters c.
Proof.
  unfold limiterLayers. cbn [List.app]. rewrite run_limiter.
  destruct (mounted "/api/" (path req)) eqn:Hapi.
  - destruct (generalLimiter (limiters c) req) as [[|status b] s1];
      cbn [fst snd visit finish finalState]; [|reflexivity].
    rewrite run_limiter. cbn [limiters].
    destruct (mounted "/api/upload" (path req)) eqn:Hup.
    + pose proof (other_group_unmounted req UploadRoutes SummarizeRoutes Hup
                    ltac:(discriminate)) as Hsum.
      pose proof (other_group_unmounted req UploadRoutes PdfRoutes Hup
                    ltac:(discriminate)) as Hpdf.
      cbn [mountPath] in Hsum, Hpdf.
      destruct (uploadLimiter s1 req) as [[|status b] s2];
        cbn [fst snd visit finish finalState]; [|reflexivity].
      rewrite !run_limiter, Hsum, Hpdf, behindLimiters_state. reflexivity.
    + rewrite run_limiter. cbn [limiters].
      destruct (mounted "/api/summarize" (path req)) eqn:Hsum.
      * pose proof (other_group_unmounted req SummarizeRoutes PdfRoutes Hsum
                      ltac:(discriminate)) as Hpdf.
        cbn [mountPath] in Hpdf. cbn [orb].
        destruct (apiLimiter s1 req) as [[|status b] s2];
          cbn [fst snd visit finish finalState]; [|reflexivity].
        rewrite run_limiter, Hpdf, behindLimiters_state. reflexivity.
      * rewrite run_limiter. cbn [limiters orb].
        destruct (mounted "/api/pdf" (path req)).
        -- destruct (apiLimiter s1 req) as [[|status b] s2];
             cbn [fst snd visit finish finalState]; [|reflexivity].
           rewrite behindLimiters_state. reflexivity.
        -- rewrite behindLimiters_state. reflexivity.
  - pose proof (not_under_api req UploadRoutes Hapi) as Hup.
    pose proof (not_under_api req SummarizeRoutes Hapi) as Hsum.
    pose proof (not_under_api req PdfRoutes Hapi) as Hpdf.
    cbn [mountPath] in Hup, Hsum, Hpdf.
    rewrite !run_limiter, Hup, Hsum, Hpdf, behindLimiters_state. reflexivity.
Qed.

(** X3: the state the limiters are left in after a request depends on the
    origin callback, the method, the path and the limiters alone.  A
    request that the origin callback refuses, an OPTIONS request and a
    request outside /api/ leave it untouched; under /api/ the general
    limiter is consulted first, and only when it passes is the one limiter
    of the path's class consulted, on the state the general limiter left
    (the upload limiter under /api/upload, the API limiter under
    /api/summarize and /api/pdf alike).  The body and the route groups
    play no part: the limiters count a request before either is looked
    at. *)
Theorem limiter_state_after_request s req :
  finalState (respond s req) =
  match Cors.originCallback allowed (origin req) with
  | inl _ => s
  | inr cleared =>
      if cleared && bool_decide (method req = OPTIONS) then s
      else if mounted "/api/" (path req)
      then match fst (generalLimiter s req) with
           | Limited _ _ => snd (generalLimiter s req)
           | Pass =>
               if mounted "/api/upload" (path req)
               then snd (uploadLimiter (snd (generalLimiter s req)) req)
               else if mounted "/api/summarize" (path req)
                    || mounted "/api/pdf" (path req)
               then snd (apiLimiter (snd (generalLimiter s req)) req)
               else snd (generalLimiter s req)
           end
      else s
  end.
Proof.
  rewrite respond_unfold. cbn [visit finalState].
  destruct (Cors.originCallback allowed (origin req)) as [e|[|]];
    [reflexivity| |].
  - cbn [andb]. destruct (bool_decide (method req = OPTIONS)); [reflexivity|].
    cbn [visit finalState]. rewrite inner_state. reflexivity.
  - cbn [andb visit finalState]. rewrite inner_state. reflexivity.
Qed.

(** X4: an OPTIONS request that the origin callback allows is answered by
    the CORS layer with status 204 and no body, whatever its path: no
    limiter, body parser, route group or handler runs for it. *)
Theorem preflight_answered_by_cors s req :
  Cors.originCallback allowed (origin req) = inr true ->
  method req = OPTIONS ->
  status (response (respond s req)) = 204 /\
  body (response (respond s req)) = Empty /\
  repliedBy (respond s req) = CorsLayer /\
  visited (respond s req) = [Helmet; SecurityHeaders; CorsLayer] /\
  finalState (respond s req) = s.
Proof.
  intros Hcors Hoptions.
  rewrite respond_unfold, Hcors, bool_decide_eq_true_2 by exact Hoptions.
  repeat split.
Qed.

(** *** The liveness endpoints *)

Lemma health_not_in_group (g : RouteGroup) (p : string) :
  atPath "/api/health" p = true -> mounted (mountPath g) p = false.
Proof.
  intros H. destruct (mounted (mountPath g) p) eqn:Hm; [|reflexivity].
  exfalso. unfold mounted in Hm.
  apply PathProps.prefixAtBoundary_lower in Hm as [r Hr].
  unfold atPath in H. apply orb_prop in H as [H|H];
    apply String.eqb_eq in H; rewrite H in Hr;
    destruct g; vm_compute in Hr; discriminate.
Qed.

Lemma root_not_in_group (g : RouteGroup) (p : string) :
  atPath "/" p = true -> mounted (mountPath g) p = false.
Proof.
  intros H. destruct (mounted (mountPath g) p) eqn:Hm; [|reflexivity].
  exfalso. unfold mounted in Hm.
  apply PathProps.prefixAtBoundary_lower in Hm as [r Hr].
  unfold atPath in H. apply orb_prop in H as [H|H];
    apply String.eqb_eq in H; rewrite H in Hr;
    destruct g; vm_compute in Hr; discriminate.
Qed.

Lemma root_not_under_api (p : string) :
  atPath "/" p = true -> mounted "/api/" p = false.
Proof.
  intros H. destruct (mounted "/api/" p) eqn:Hm; [|reflexivity].
  exfalso. unfold mounted in Hm.
  apply PathProps.prefixAtBoundary_lower in Hm as [r Hr].
  unfold atPath in H. apply orb_prop in H as [H|H];
    apply String.eqb_eq in H; rewrite H in Hr;
    vm_compute in Hr; discriminate.
Qed.

Lemma health_is_not_root (p : string) :
  atPath "/api/health" p = true -> atPath "/" p = false.
Proof.
  unfold atPath. intros H. apply orb_prop in H as [H|H];
    apply String.eqb_eq in H; rewrite H; reflexivity.
Qed.

(** Behind the limiters, a request whose body the parsers accept and that
    no route group matches arrives at the liveness endpoints. *)
Lemma arrives_at_liveness req c :
  (contentType req = JsonBody \/ contentType req = UrlencodedBody ->
   bodyFailure req = None) ->
  (forall g, mounted (mountPath g) (path req) = false) ->
  dispatch behindLimiters None req c =
  visit JsonParser (visit UrlencodedParser
    (dispatch (livenessLayers toISOString ++ terminalLayers nodeEnv)
       None req c)).
Proof.
  intros Hbody Hgroups.
  assert (Hparse : forall l accepts rest,
            accepts = JsonBody \/ accepts = UrlencodedBody ->
            dispatch (Use l always (parserLayer accepts) :: rest) None req c =
            visit l (dispatch rest None req c)).
  { intros l accepts rest Hacc. rewrite run_parser.
    destruct (bool_decide (contentType req = accepts)) eqn:Hct;
      [|reflexivity].
    apply bool_decide_eq_true in Hct. rewrite Hbody; [reflexivity|].
    rewrite Hct. exact Hacc. }
  unfold parserLayers. cbn [List.app].
  rewrite !Hparse by tauto.
  rewrite routeLayers_map, routes_skipped; [reflexivity|].
  apply List.Forall_forall. intros g _. apply Hgroups.
Qed.

(** Behind CORS, a request under no route group meets the general limiter
    alone. *)
Lemma general_limiter_alone req c :
  (forall g, mounted (mountPath g) (path req) = false) ->
  dispatch inner None req c =
  if mounted "/api/" (path req)
  then match fst (generalLimiter (limiters c) req) with
       | Pass =>
           visit GeneralLimiter
             (dispatch behindLimiters None req
                {| resHeaders := resHeaders c;
                   limiters := snd (generalLimiter (limiters c) req) |})
       | Limited status b =>
           finish GeneralLimiter
             {| resHeaders := resHeaders c;
                limiters := snd (generalLimiter (limiters c) req) |} status b
       end
  else dispatch behindLimiters None req c.
Proof.
  intros Hgroups.
  pose proof (Hgroups UploadRoutes) as Hup.
  pose proof (Hgroups SummarizeRoutes) as Hsum.
  pose proof (Hgroups PdfRoutes) as Hpdf.
  cbn [mountPath] in Hup, Hsum, Hpdf.
  unfold limiterLayers. cbn [List.app].
  rewrite run_limiter.
  destruct (mounted "/api/" (path req)).
  - destruct (fst (generalLimiter (limiters c) req)); [|reflexivity].
    rewrite !run_limiter, Hup, Hsum, Hpdf. reflexivity.
  - rewrite !run_limiter, Hup, Hsum, Hpdf. reflexivity.
Qed.



(** X7: the liveness endpoints serve GET and HEAD only.  A request of
    another method for /api/health or / that the earlier layers let
    through (allowed origin, not OPTIONS, passed by the general limiter
    when under /api/, body accepted) is answered by the 404 handler. *)
Theorem liveness_other_methods_not_found s req :
  Cors.originCallback allowed (origin req) = inr true ->
  method req <> OPTIONS ->
  isGet (method req) = false ->
  atPath "/api/health" (path req) = true \/ atPath "/" (path req) = true ->
  (mounted "/api/" (path req) = true -> fst (generalLimiter s req) = Pass) ->
  (contentType req = JsonBody \/ contentType req = UrlencodedBody ->
   bodyFailure req = None) ->
  status (response (respond s req)) = 404 /\
  body (response (respond s req)) = Json [("error", "Endpoint not found")] /\
  repliedBy (respond s req) = NotFound.
Proof.
  intros Hcors Hmethod Hget Hpath Hgeneral Hbody.
  assert (Hgroups : forall g, mounted (mountPath g) (path req) = false).
  { intros g. destruct Hpath as [Hp|Hp];
      [apply health_not_in_group | apply root_not_in_group]; exact Hp. }
  rewrite respond_unfold, Hcors, bool_decide_eq_false_2 by exact Hmethod.
  rewrite (general_limiter_alone req _ Hgroups).
  cbn [limiters withHeaders].
  assert (Hlive : forall c,
            dispatch behindLimiters None req c =
            visit JsonParser (visit UrlencodedParser
              (finish NotFound c 404 (Json [("error", "Endpoint not found")])))).
  { intros c. rewrite (arrives_at_liveness req c Hbody Hgroups).
    unfold livenessLayers, terminalLayers. cbn [List.app].
    unfold isHealth, isRoot. rewrite !dispatch_use, Hget.
    cbn [andb]. rewrite dispatch_err, run_notFound. reflexivity. }
  destruct (mounted "/api/" (path req)).
  - rewrite (Hgeneral eq_refl), Hlive. repeat split.
  - rewrite Hlive. repeat split.
Qed.

(** *** What reaches the layers behind the limiters *)

(** [Q] holds of every response if it holds of every reply sent before the
    body parsers and of what the layers behind the limiters do. *)
Lemma through_upstream (Q : Result LimiterState -> Prop) s req :
  (forall l r, downstream l = false -> Q r -> Q (visit l r)) ->
  (forall l c status b, downstream l = false -> Q (finish l c status b)) ->
  (forall c, Q (dispatch behindLimiters None req c)) ->
  Q (respond s req).
Proof.
  intros Hvisit Hfinish Hbehind.
  assert (Herr : forall e c, Q (dispatch behindLimiters (Some e) req c)).
  { intros e c. rewrite pending_behindLimiters. apply Hfinish. reflexivity. }
  assert (Hinner : forall c, Q (dispatch inner None req c)).
  { unfold limiterLayers. cbn [List.app].
    do 4 (apply step_use;
          [ intros r Hr; apply Hvisit; [reflexivity | exact Hr]
          | intros c status b; apply Hfinish; reflexivity
          |
          | intros e c; rewrite ?dispatch_use_pending; apply Herr ]).
    exact Hbehind. }
  rewrite respond_unfold.
  do 2 (apply Hvisit; [reflexivity|]).
  destruct (Cors.originCallback allowed (origin req)) as [e|[|]].
  - apply Hvisit; [reflexivity|]. apply Hfinish. reflexivity.
  - destruct (bool_decide (method req = OPTIONS)).
    + apply Hfinish. reflexivity.
    + apply Hvisit; [reflexivity|]. apply Hinner.
  - apply Hvisit; [reflexivity|]. apply Hinner.
Qed.

(** The route groups, when [g] is the one the path is under. *)
Lemma routes_at_group req c (g : RouteGroup) :
  mounted (mountPath g) (path req) = true ->
  dispatch (routeLayers routes ++ livenessLayers toISOString
            ++ terminalLayers nodeEnv) None req c =
  match routes g req with
  | Handled status b => finish (Route g) c status b
  | PassOn =>
      visit (Route g)
        (finish NotFound c 404 (Json [("error", "Endpoint not found")]))
  | Failed e =>
      visit (Route g)
        (finish ErrorHandler c (fst (translated e)) (snd (translated e)))
  end.
Proof.
  intros Hg.
  assert (Hothers : forall g', g' <> g ->
            mounted (mountPath g') (path req) = false).
  { intros g' Hne. apply (other_group_unmounted req g g' Hg Hne). }
  assert (Hhealth : isHealth req = false).
  { unfold isHealth. destruct (atPath "/api/health" (path req)) eqn:Hh;
      [|apply andb_false_r].
    rewrite (health_not_in_group g _ Hh) in Hg. discriminate. }
  assert (Hroot : isRoot req = false).
  { unfold isRoot. destruct (atPath "/" (path req)) eqn:Hr;
      [|apply andb_false_r].
    rewrite (root_not_in_group g _ Hr) in Hg. discriminate. }
  unfold routeLayers, livenessLayers, terminalLayers. cbn [List.app].
  assert (Hgroup : forall g',
            mounted (mountPath g') (path req) =
            if bool_decide (g' = g) then true else false).
  { intros g'. destruct (bool_decide (g' = g)) eqn:Heq.
    - apply bool_decide_eq_true in Heq. subst g'. exact Hg.
    - apply bool_decide_eq_false in Heq. apply Hothers. exact Heq. }
  destruct g;
    do 7 (rewrite run_route, Hgroup;
          match goal with
          | |- context [bool_decide (?a = ?b)] =>
              let v := eval vm_compute in (bool_decide (a = b)) in
              change (bool_decide (a = b)) with v
          end; cbv iota);
    rewrite !dispatch_use, Hhealth, Hroot, dispatch_err, run_notFound;
    match type of Hg with
    | mounted (mountPath ?G) _ = true => destruct (routes G req)
    end;
    try reflexivity; skip_to_errorHandler; reflexivity.
Qed.

(** The two body parsers, spelled out: each refuses only a body of its
    own content type, and a refusal goes straight to the error handler. *)
Lemma behindLimiters_unfold req c :
  dispatch behindLimiters None req c =
  match (if bool_decide (contentType req = JsonBody)
         then bodyFailure req else None) with
  | Some e =>
      visit JsonParser
        (finish ErrorHandler c (fst (translated e)) (snd (translated e)))
  | None =>
      visit JsonParser
        match (if bool_decide (contentType req = UrlencodedBody)
               then bodyFailure req else None) with
        | Some e =>
            visit UrlencodedParser
              (finish ErrorHandler c (fst (translated e))
                 (snd (translated e)))
        | None =>
            visit UrlencodedParser
              (dispatch (routeLayers routes ++ livenessLayers toISOString
                         ++ terminalLayers nodeEnv) None req c)
        end
  end.
Proof.
  unfold parserLayers. cbn [List.app]. rewrite run_parser.
  assert (Hpending : forall e,
            dispatch (routeLayers routes ++ livenessLayers toISOString
                      ++ terminalLayers nodeEnv) (Some e) req c =
            finish ErrorHandler c (fst (translated e)) (snd (translated e))).
  { intros e. unfold routeLayers, livenessLayers, terminalLayers.
    cbn [List.app]. skip_to_errorHandler. reflexivity. }
  rewrite run_parser.
  destruct (bool_decide (contentType req = JsonBody)),
    (bool_decide (contentType req = UrlencodedBody)),
    (bodyFailure req) as [e|];
    rewrite ?dispatch_use_pending, ?Hpending; reflexivity.
Qed.


(** *** Requests outside /api/ *)

Lemma behindLimiters_ignoresLimiters :
  Forall (ignoresLimiters (LimiterState := LimiterState)) behindLimiters.
Proof.
  unfold parserLayers, routeLayers, livenessLayers, terminalLayers,
    mountRoute. cbn [List.app].
  repeat constructor; simpl; intros;
    unfold parserLayer, routeLayer, health, root, errorLayer, notFound;
    repeat match goal with
           | |- context [let (_, _) := ?x in _] => destruct x
           | |- context [match ?x with _ => _ end] => destruct x
           end; cbn [sameOutcome]; auto.
Qed.

Lemma dispatch_ignoresLimiters (stack : list (Layer LimiterState)) :
  Forall ignoresLimiters stack ->
  forall (pending : option Failure.t) req c c',
    resHeaders c = resHeaders c' ->
    response (dispatch stack pending req c) =
      response (dispatch stack pending req c') /\
    repliedBy (dispatch stack pending req c) =
      repliedBy (dispatch stack pending req c') /\
    visited (dispatch stack pending req c) =
      visited (dispatch stack pending req c').
Proof.
  induction 1 as [|layer rest Hlayer Hrest IH]; intros pending req c c' Hc.
  - destruct pending; cbn [dispatch finalhandler finish response repliedBy
                           visited]; rewrite Hc; repeat split.
  - destruct layer as [l applies h | l h]; simpl in Hlayer.
    + destruct pending as [e|]; [apply IH; exact Hc|].
      rewrite !dispatch_use. destruct (applies req); [|apply IH; exact Hc].
      specialize (Hlayer req c c' Hc).
      destruct (h req c) as [d|d e|d status b],
               (h req c') as [d'|d' e'|d' status' b'];
        cbn [sameOutcome] in Hlayer; try contradiction;
        cbn [continueWith visit finish response repliedBy visited].
      * destruct (IH None req d d' Hlayer) as [-> [-> ->]]. repeat split.
      * destruct Hlayer as [Hd <-].
        destruct (IH (Some e) req d d' Hd) as [-> [-> ->]]. repeat split.
      * destruct Hlayer as [-> [<- <-]]. repeat split.
    + destruct pending as [e|]; [|apply IH; exact Hc].
      rewrite !dispatch_err_pending. specialize (Hlayer e req c c' Hc).
      destruct (h e req c) as [d|d e1|d status b],
               (h e req c') as [d'|d' e1'|d' status' b'];
        cbn [sameOutcome] in Hlayer; try contradiction;
        cbn [continueWith visit finish response repliedBy visited].
      * destruct (IH None req d d' Hlayer) as [-> [-> ->]]. repeat split.
      * destruct Hlayer as [Hd <-].
        destruct (IH (Some e1) req d d' Hd) as [-> [-> ->]]. repeat split.
      * destruct Hlayer as [-> [<- <-]]. repeat split.
Qed.

Lemma limiter_visited_under_api s req (l : Label) :
  rateLimiter l = true -> In l (visited (respond s req)) ->
  mounted "/api/" (path req) = true.
Proof.
  intros Hlim Hin.
  destruct (visited_applies _ _ _ _ _ Hin) as [Hf|[layer [Hl [Hlab Happ]]]];
    [subst l; discriminate|].
  unfold app, securityLayers, limiterLayers, parserLayers, routeLayers,
    livenessLayers, terminalLayers, mountRoute in Hl. cbn [List.app] in Hl.
  repeat (destruct Hl as [Hl|Hl];
          [ subst layer; cbn in Hlab; subst l; try discriminate Hlim;
            specialize (Happ eq_refl); cbn [appliesTo] in Happ;
            first [ exact Happ
                  | apply (PathProps.mounted_api_of_group UploadRoutes);
                    exact Happ
                  | apply (PathProps.mounted_api_of_group SummarizeRoutes);
                    exact Happ
                  | apply (PathProps.mounted_api_of_group PdfRoutes);
                    exact Happ ] | ]).
  destruct Hl.
Qed.

(** X9: rate limiting never touches a request whose path is not under
    /api/ (the root endpoint, for one): no limiter runs for it, the state
    of the limiters is left as it was, and the response and the layers
    that run are the same whatever that state is, that is, however many
    requests the client has made before. *)
Theorem outside_api_never_limited s s' req :
  mounted "/api/" (path req) = false ->
  forallb (fun l => negb (rateLimiter l)) (visited (respond s req)) = true /\
  finalState (respond s req) = s /\
  response (respond s req) = response (respond s' req) /\
  repliedBy (respond s req) = repliedBy (respond s' req) /\
  visited (respond s req) = visited (respond s' req).
Proof.
  intros Hapi. split; [|split].
  - apply forallb_forall. intros l Hin.
    destruct (rateLimiter l) eqn:Hlim; [|reflexivity].
    rewrite (limiter_visited_under_api s req l Hlim Hin) in Hapi.
    discriminate.
  - rewrite respond_unfold. cbn [visit finalState].
    destruct (Cors.originCallback allowed (origin req)) as [e|[|]];
      [reflexivity| |].
    + destruct (bool_decide (method req = OPTIONS)); [reflexivity|].
      cbn [visit finalState]. rewrite inner_state, Hapi. reflexivity.
    + cbn [visit finalState]. rewrite inner_state, Hapi. reflexivity.
  - assert (Hinner : forall c,
              dispatch inner None req c = dispatch behindLimiters None req c).
    { intros c. rewrite general_limiter_alone, Hapi; [reflexivity|].
      intros g. apply not_under_api. exact Hapi. }
    assert (Hblind : forall c c', resHeaders c = resHeaders c' ->
              response (dispatch inner None req c) =
                response (dispatch inner None req c') /\
              repliedBy (dispatch inner None req c) =
                repliedBy (dispatch inner None req c') /\
              visited (dispatch inner None req c) =
                visited (dispatch inner None req c')).
    { intros c c' Hc. rewrite !Hinner.
      apply dispatch_ignoresLimiters;
        [apply behindLimiters_ignoresLimiters | exact Hc]. }
    rewrite !respond_unfold.
    destruct (Cors.originCallback allowed (origin req)) as [e|[|]].
    + repeat split.
    + destruct (bool_decide (method req = OPTIONS)); [repeat split|].
      cbn [visit response repliedBy visited].
      destruct (Hblind
                  (withHeaders (Cors.corsHeaders (origin req)) (secured s))
                  (withHeaders (Cors.corsHeaders (origin req)) (secured s'))
                  eq_refl) as [-> [-> ->]].
      repeat split.
    + cbn [visit response repliedBy visited].
      destruct (Hblind (secured s) (secured s') eq_refl) as [-> [-> ->]].
      repeat split.
Qed.

(** X10: a request that gets as far as the body parsers with a JSON or
    form-encoded body that they refuse, for its length or for its content,
    is answered by the error handler with its answer to that failure, and
    no route group, liveness endpoint or 404 handler runs.  An over-long
    body is thus answered 500, and a parser failure whose message contains
    "Invalid file type" is answered 400 with that message. *)
Theorem body_failure_translated s req (e : Failure.t) :
  In JsonParser (visited (respond s req)) ->
  contentType req = JsonBody \/ contentType req = UrlencodedBody ->
  bodyFailure req = Some e ->
  repliedBy (respond s req) = ErrorHandler /\
  status (response (respond s req)) = fst (translated e) /\
  body (response (respond s req)) = snd (translated e) /\
  forallb (fun l => negb (handler l)) (visited (respond s req)) = true /\
  (e = BodyParser.entityTooLarge -> status (response (respond s req)) = 500) /\
  (forall m, e = Failure.Error m -> Js.includes "Invalid file type" m = true ->
     status (response (respond s req)) = 400 /\
     body (response (respond s req)) = Json [("error", m)]).
Proof.
  intros Hin Htype Hfail.
  assert (Hmain :
    repliedBy (respond s req) = ErrorHandler /\
    status (response (respond s req)) = fst (translated e) /\
    body (response (respond s req)) = snd (translated e) /\
    forallb (fun l => negb (handler l)) (visited (respond s req)) = true).
  { revert Hin.
    apply (through_upstream
             (fun r => In JsonParser (visited r) ->
                repliedBy r = ErrorHandler /\
                status (response r) = fst (translated e) /\
                body (response r) = snd (translated e) /\
                forallb (fun l => negb (handler l)) (visited r) = true)).
    - intros l r Hl Hr Hin. cbn [visit visited] in Hin.
      destruct Hin as [Heq|Hin]; [subst l; discriminate|].
      destruct (Hr Hin) as [H1 [H2 [H3 H4]]].
      cbn [visit repliedBy response visited forallb].
      rewrite H4. destruct l; try discriminate; repeat split; assumption.
    - intros l c status b Hl Hin. cbn [finish visited] in Hin.
      destruct Hin as [Heq|[]]. subst l. discriminate.
    - intros c _. unfold parserLayers, routeLayers, livenessLayers,
        terminalLayers. cbn [List.app]. rewrite run_parser, Hfail.
      destruct Htype as [Ht|Ht].
      + rewrite Ht, bool_decide_eq_true_2 by reflexivity.
        skip_to_errorHandler. repeat split.
      + rewrite Ht, bool_decide_eq_false_2 by discriminate.
        rewrite run_parser, Hfail, Ht, bool_decide_eq_true_2 by reflexivity.
        skip_to_errorHandler. repeat split. }
  destruct Hmain as [Hr [Hs [Hb Hv]]].
  split; [exact Hr|]. split; [exact Hs|]. split; [exact Hb|].
  split; [exact Hv|]. split.
  - intros ->. rewrite Hs, ErrorTranslatorProps.handler_by_class. reflexivity.
  - intros m -> Hm. rewrite Hs, Hb, ErrorTranslatorProps.handler_by_class.
    unfold ErrorTranslator.classify, ErrorTranslator.isUploadSize,
      ErrorTranslator.mentionsInvalidFileType.
    cbn [Failure.isMulterError Failure.Error Failure.message andb].
    rewrite Hm. split; reflexivity.
Qed.

End Application.

End StackProps.

(** ** The limiter, in the stack *)

Module LimiterProps.
Import Http Express Stack RateLimit.

(** A limiter built on [admission] that refuses a request replies itself;
    the layers after it do not run. *)
Lemma refusal_stops (cfg : RouteClass -> Config) (status : Z) (b : Body)
    (cls : RouteClass) (l : Label) (applies : Request -> bool)
    (rest : list (Layer (gmap Key Bucket))) (req : Request)
    (c : Ctx (gmap Key Bucket)) :
  applies req = true ->
  fst (admission cfg (limiters c) (cls, ip req) (time req)) = Reject ->
  dispatch (Use l applies (limiterLayer (Limiter.limiterOf cfg status b cls))
              :: rest) None req c =
  finish l {| resHeaders := resHeaders c;
              limiters := snd (admission cfg (limiters c) (cls, ip req)
                                 (time req)) |} status b.
Proof.
  intros Happlies Hreject. rewrite StackProps.run_limiter, Happlies.
  unfold Limiter.limiterOf.
  destruct (admission cfg (limiters c) (cls, ip req) (time req)) as [v s'].
  simpl in Hreject. subst v. reflexivity.
Qed.

(** C4: for the fixed-window limiter, take any run of requests in which
    the requests of one client to one route class start, at [t0], a new
    window (the client has no bucket of that class, or one whose window is
    over) and all arrive before [t0 + windowMs].  Then the [i]-th of them
    (counting from 0) is let through exactly when [i < maxCount], whatever
    other clients do in between.  Once the window has elapsed the client
    starts a new window: its next request is let through (when the maximum
    is positive) and counting starts afresh.  A refused request is answered
    by the limiter layer itself, and no layer behind it runs. *)
Theorem C4_fixed_window (cfg : RouteClass -> Config) (k : Key)
    (tbl : gmap Key Bucket) (reqs : list (Key * Z)) (t0 : Z) (ts : list Z) :
  (tbl !! k = None \/ exists b, tbl !! k = Some b /\ resetAt b <= t0) ->
  timesOf k reqs = t0 :: ts ->
  Forall (fun t => t0 <= t < t0 + windowMs (cfg (fst k))) ts ->
  (forall (i : nat) (v : Verdict),
     verdictsOf k (fst (serve cfg tbl reqs)) !! i = Some v ->
     (v = Allow <-> Z.of_nat i < maxCount (cfg (fst k)))) /\
  length (verdictsOf k (fst (serve cfg tbl reqs))) = length (t0 :: ts) /\
  (forall t, t0 + windowMs (cfg (fst k)) <= t ->
     (snd (serve cfg tbl reqs) !! k = None \/
      exists b, snd (serve cfg tbl reqs) !! k = Some b /\ resetAt b <= t) /\
     (fst (admission cfg (snd (serve cfg tbl reqs)) k t) = Allow <->
      0 < maxCount (cfg (fst k)))) /\
  (forall (status : Z) (b : Body) (l : Label) (applies : Request -> bool)
          (rest : list (Layer (gmap Key Bucket))) (req : Request)
          (c : Ctx (gmap Key Bucket)),
     applies req = true ->
     fst (admission cfg (limiters c) (fst k, ip req) (time req)) = Reject ->
     visited (dispatch
                (Use l applies
                   (limiterLayer (Limiter.limiterOf cfg status b (fst k)))
                 :: rest) None req c) = [l] /\
     Http.status (response (dispatch
                (Use l applies
                   (limiterLayer (Limiter.limiterOf cfg status b (fst k)))
                 :: rest) None req c)) = status /\
     body (response (dispatch
                (Use l applies
                   (limiterLayer (Limiter.limiterOf cfg status b (fst k)))
                 :: rest) None req c)) = b).
Proof.
  intros Hstart Htimes Hwindow.
  destruct (RateLimitProps.serve_window cfg k reqs tbl t0 ts
              Hstart Htimes Hwindow) as [Hverdicts [Hlen [c' Hend]]].
  split; [exact Hverdicts|]. split; [exact Hlen|]. split.
  - intros t Ht.
    assert (Hover : snd (serve cfg tbl reqs) !! k = None \/
                    exists b, snd (serve cfg tbl reqs) !! k = Some b /\
                              resetAt b <= t).
    { right. eexists. split; [exact Hend | simpl; lia]. }
    split; [exact Hover|].
    rewrite (RateLimitProps.admission_fresh cfg k _ t Hover).
    destruct (Z.ltb_spec 0 (maxCount (cfg (fst k)))); simpl; split;
      (reflexivity || discriminate || lia).
  - intros status b l applies rest req c Happlies Hreject.
    rewrite (refusal_stops cfg status b (fst k) l applies rest req c
               Happlies Hreject).
    repeat split.
Qed.

Lemma C4_window_witness :
  let k : Key := (HeavyApi, "203.0.113.7") in
  let other : Key := (HeavyApi, "198.51.100.9") in
  let reqs := [(k, 0); (k, 10); (other, 15); (k, 20); (k, 59999)] in
  verdictsOf k (fst (serve Samples.limits ∅ reqs)) =
    [Allow; Allow; Reject; Reject] /\
  length (verdictsOf k (fst (serve Samples.limits ∅ reqs))) = 4%nat /\
  fst (admission Samples.limits (snd (serve Samples.limits ∅ reqs)) k 60000)
    = Allow.
Proof.
  cbv zeta.
  destruct (C4_fixed_window Samples.limits (HeavyApi, "203.0.113.7") ∅
              [((HeavyApi, "203.0.113.7"), 0); ((HeavyApi, "203.0.113.7"), 10);
               ((HeavyApi, "198.51.100.9"), 15);
               ((HeavyApi, "203.0.113.7"), 20);
               ((HeavyApi, "203.0.113.7"), 59999)]
              0 [10; 20; 59999])
    as [_ [Hlen [Hnext _]]].
  - left. reflexivity.
  - reflexivity.
  - repeat constructor; simpl; lia.
  - split; [vm_compute; reflexivity|]. split; [exact Hlen|].
    apply (Hnext 60000); simpl; lia.
Defined.

End LimiterProps.

(** ** Concrete requests through the sample server *)

Module Runs.
Import Http Express Stack Samples.

(** C5 as stated fails: an Origin header that is present with an empty
    value is not in the allowed set, yet the callback lets it through and
    the request is served. *)
Lemma C5_empty_origin_allowed :
  let req := get "/api/upload" (Some EmptyString) in
  origin req = Some EmptyString /\
  ~ In EmptyString (Cors.allowedOrigins None) /\
  Cors.originCallback (Cors.allowedOrigins None) (origin req) = inr true /\
  repliedBy (server None None ∅ req) = Route UploadRoutes /\
  status (response (server None None ∅ req)) = 200.
Proof.
  cbv zeta. split; [reflexivity|]. split.
  - simpl. intros [H|[]]. discriminate.
  - split; [reflexivity|]. split; vm_compute; reflexivity.
Qed.

Example unlisted_origin_refused :
  status (response (server (Some "https://app.example, https://www.example")
                      (Some "production") ∅
                      (get "/api/health" (Some "https://evil.example")))) = 500.
Proof. vm_compute. reflexivity. Qed.

Example listed_origin_served :
  status (response (server (Some "https://app.example, https://www.example")
                      (Some "production") ∅
                      (get "/api/health" (Some "https://www.example")))) = 200.
Proof. vm_compute. reflexivity. Qed.

(** C8 as stated fails: requests that match no route group or liveness
    endpoint and do not receive the 404.  One has an origin outside the
    allowed set and is answered 500 by the error handler; one is an
    OPTIONS request and is answered 204 by the CORS layer. *)
Lemma C8_unmatched_without_404 :
  let refused := get "/nowhere" (Some "http://evil.example") in
  let preflight :=
    {| method := OPTIONS; path := "/nowhere"; origin := None;
       ip := "203.0.113.7"; time := 0; contentType := NoBody;
       bodyLength := 0; bodyError := None |} in
  matched refused = false /\
  status (response (server None (Some "production") ∅ refused)) = 500 /\
  body (response (server None (Some "production") ∅ refused)) =
    Json [("error", ErrorTranslator.unexpectedText)] /\
  repliedBy (server None (Some "production") ∅ refused) = ErrorHandler /\
  matched preflight = false /\
  status (response (server None (Some "production") ∅ preflight)) = 204 /\
  repliedBy (server None (Some "production") ∅ preflight) = CorsLayer.
Proof. cbv zeta. repeat split; vm_compute; reflexivity. Qed.

Lemma C8_not_found_witness :
  status (response (server None None ∅ (get "/nowhere" None))) = 404 /\
  body (response (server None None ∅ (get "/nowhere" None))) =
    Json [("error", "Endpoint not found")].
Proof.
  destruct (StackProps.C8_unmatched_not_found None None helmet extra
              (Limiter.limiterOf limits 429 tooMany RateLimit.General)
              (Limiter.limiterOf limits 429 tooMany RateLimit.UploadClass)
              (Limiter.limiterOf limits 429 tooMany RateLimit.HeavyApi)
              routes iso ∅ (get "/nowhere" None))
    as [Hstatus [Hbody _]].
  - reflexivity.
  - discriminate.
  - intros H. vm_compute in H. discriminate.
  - intros [H|H]; discriminate.
  - vm_compute. reflexivity.
  - split; [exact Hstatus | exact Hbody].
Defined.

Lemma C6_headers_witness :
  let r := server None None ∅ (get "/nowhere" (Some "http://evil.example")) in
  status (response r) = 500 /\
  hasHeader "X-Content-Type-Options" (headers (response r)) = true /\
  In ("X-Content-Type-Options", "nosniff") (headers (response r)).
Proof.
  cbv zeta. split; [vm_compute; reflexivity|].
  destruct (StackProps.C6_security_headers_on_every_response None None
              helmet extra
              (Limiter.limiterOf limits 429 tooMany RateLimit.General)
              (Limiter.limiterOf limits 429 tooMany RateLimit.UploadClass)
              (Limiter.limiterOf limits 429 tooMany RateLimit.HeavyApi)
              routes iso ∅ (get "/nowhere" (Some "http://evil.example"))
              "X-Content-Type-Options" "nosniff")
    as [Hname Hvalue].
  - simpl. left. reflexivity.
  - split; [exact Hname|]. apply Hvalue.
    + vm_compute. right. right. left. reflexivity.
    + simpl. intros H.
      repeat (destruct H as [H|H]; [discriminate|]). exact H.
Defined.

Lemma C10_upload_witness :
  let req := get "/api/upload" None in
  fst (Limiter.limiterOf limits 429 tooMany RateLimit.General ∅ req) = Pass /\
  fst (Limiter.limiterOf limits 429 tooMany RateLimit.UploadClass
         (snd (Limiter.limiterOf limits 429 tooMany RateLimit.General ∅ req)) req)
    = Pass.
Proof.
  cbv zeta.
  destruct (StackProps.C10_limiters_stack None None helmet extra
              (Limiter.limiterOf limits 429 tooMany RateLimit.General)
              (Limiter.limiterOf limits 429 tooMany RateLimit.UploadClass)
              (Limiter.limiterOf limits 429 tooMany RateLimit.HeavyApi)
              routes iso ∅ (get "/api/upload" None))
    as [Hgeneral [_ [_ [Hupload _]]]].
  - vm_compute. reflexivity.
  - split; [apply Hgeneral | apply Hupload]; vm_compute; reflexivity.
Defined.

Example body_at_limit_served :
  let r := server None None ∅ (postJson "/api/share" (10 * 1024 * 1024)) in
  status (response r) = 200 /\ repliedBy r = Route ShareRoutes.
Proof. cbv zeta. split; vm_compute; reflexivity. Qed.

Example body_over_limit_refused :
  let r := server None None ∅ (postJson "/api/share" (10 * 1024 * 1024 + 1)) in
  status (response r) = 500 /\
  visited r = [Helmet; SecurityHeaders; CorsLayer; GeneralLimiter;
               JsonParser; ErrorHandler].
Proof. cbv zeta. split; vm_compute; reflexivity. Qed.

(** The eleventh upload of a client inside one window is refused by the
    upload limiter, behind the general limiter that passed it. *)
Example eleventh_upload_limited :
  let spent : gmap RateLimit.Key RateLimit.Bucket :=
    {[ (RateLimit.UploadClass, "203.0.113.7") :=
         {| RateLimit.count := 10; RateLimit.resetAt := 900000 |} ]} in
  let r := server None None spent (get "/api/upload" None) in
  status (response r) = 429 /\
  visited r = [Helmet; SecurityHeaders; CorsLayer; GeneralLimiter; UploadLimiter].
Proof. cbv zeta. split; vm_compute; reflexivity. Qed.

End Runs.

(** ** The allowed origins *)

Module CorsProps.
Import Cors.

Lemma trimEnd_cons (c : ascii) (s : string) :
  trimEnd (String c s) =
  match trimEnd s with
  | EmptyString => if isSpace c then EmptyString else String c EmptyString
  | kept => String c kept
  end.
Proof. reflexivity. Qed.

(** [trimStart] leaves no white space in front. *)
Lemma trimStart_head (s : string) (c : ascii) (rest : string) :
  trimStart s = String c rest -> isSpace c = false.
Proof.
  induction s as [|a s IH]; simpl; [discriminate|].
  destruct (isSpace a) eqn:Ha; [exact IH|].
  intros H. injection H as <- _. exact Ha.
Qed.

(** [trimEnd] keeps the first character of what it leaves. *)
Lemma trimEnd_head (s : string) (c : ascii) (rest : string) :
  trimEnd s = String c rest -> exists rest', s = String c rest'.
Proof.
  destruct s as [|a s]; [discriminate|]. rewrite trimEnd_cons.
  destruct (trimEnd s); [destruct (isSpace a)|];
    intros H; try discriminate; injection H as <- _; eexists; reflexivity.
Qed.

(** [trimEnd] leaves no white space at the end. *)
Lemma trimEnd_last (s : string) :
  forall (pre : string) (c : ascii),
    trimEnd s = (pre ++ String c EmptyString)%string -> isSpace c = false.
Proof.
  induction s as [|a s IH]; intros pre c H.
  - destruct pre; discriminate.
  - rewrite trimEnd_cons in H. destruct (trimEnd s) as [|k kept] eqn:Hkept.
    + destruct (isSpace a) eqn:Ha.
      * destruct pre; discriminate.
      * destruct pre as [|p pre].
        -- rewrite append_nil in H. injection H as <-. exact Ha.
        -- rewrite append_cons in H. injection H as _ H.
           destruct pre; discriminate.
    + destruct pre as [|p pre].
      * rewrite append_nil in H. discriminate.
      * rewrite append_cons in H. injection H as _ H.
        apply (IH pre c). exact H.
Qed.

Lemma trim_head (s : string) (c : ascii) (rest : string) :
  trim s = String c rest -> isSpace c = false.
Proof.
  unfold trim. intros H. destruct (trimEnd_head _ _ _ H) as [rest' H'].
  apply (trimStart_head s c rest'). exact H'.
Qed.

Lemma trim_last (s pre : string) (c : ascii) :
  trim s = (pre ++ String c EmptyString)%string -> isSpace c = false.
Proof. unfold trim. apply trimEnd_last. Qed.

Lemma split_sep (sep : ascii) (rest : string) :
  split sep (String sep rest) = EmptyString :: split sep rest.
Proof. simpl. rewrite Ascii.eqb_refl. reflexivity. Qed.

Lemma split_other (sep c : ascii) (rest : string) :
  Ascii.eqb c sep = false ->
  split sep (String c rest) =
  match split sep rest with
  | piece :: pieces => String c piece :: pieces
  | [] => [String c EmptyString]
  end.
Proof. intros H. simpl. rewrite H. reflexivity. Qed.

Lemma occurrences_cons (sep c : ascii) (s : string) :
  Js.occurrences sep (String c s) =
  if Ascii.eqb c sep then S (Js.occurrences sep s) else Js.occurrences sep s.
Proof. reflexivity. Qed.

(** A string in front of a separator is the first piece. *)
Lemma split_app (sep : ascii) (x rest : string) :
  Js.occurrences sep x = 0%nat ->
  split sep (x ++ String sep rest) = x :: split sep rest.
Proof.
  induction x as [|a x IH]; intros Hx.
  - rewrite append_nil. apply split_sep.
  - rewrite occurrences_cons in Hx.
    destruct (Ascii.eqb a sep) eqn:Ha; [discriminate|].
    rewrite append_cons, (split_other sep a _ Ha), (IH Hx). reflexivity.
Qed.

Lemma split_whole (sep : ascii) (x : string) :
  Js.occurrences sep x = 0%nat -> split sep x = [x].
Proof.
  induction x as [|a x IH]; intros Hx; [reflexivity|].
  rewrite occurrences_cons in Hx.
  destruct (Ascii.eqb a sep) eqn:Ha; [discriminate|].
  rewrite (split_other sep a _ Ha), (IH Hx). reflexivity.
Qed.

(** [split] undoes [join] on pieces that are free of the separator. *)
Lemma split_join (sep : ascii) (pieces : list string) :
  pieces <> [] ->
  Forall (fun p => Js.occurrences sep p = 0%nat) pieces ->
  split sep (Js.join sep pieces) = pieces.
Proof.
  intros Hne Hfree. induction Hfree as [|x rest Hx Hrest IH]; [congruence|].
  destruct rest as [|y rest].
  - apply split_whole. exact Hx.
  - change (Js.join sep (x :: y :: rest))
      with (x ++ String sep (Js.join sep (y :: rest)))%string.
    rewrite (split_app sep x _ Hx), IH by discriminate. reflexivity.
Qed.

Lemma length_split (sep : ascii) (s : string) :
  length (split sep s) = S (Js.occurrences sep s).
Proof.
  induction s as [|c s IH]; [reflexivity|].
  rewrite occurrences_cons. destruct (Ascii.eqb c sep) eqn:Hc.
  - apply Ascii.eqb_eq in Hc. subst c. rewrite split_sep. simpl.
    rewrite IH. reflexivity.
  - rewrite (split_other sep c _ Hc).
    destruct (split sep s) as [|piece pieces]; [discriminate|].
    simpl in *. exact IH.
Qed.

Lemma allowedOrigins_set (s : string) :
  s <> EmptyString -> allowedOrigins (Some s) = map trim (split "," s).
Proof. destruct s; [congruence | reflexivity]. Qed.

(** X11: no allowed origin begins or ends with a white-space character of
    ASCII (tab, line feed, vertical tab, form feed, carriage return,
    space), whatever CORS_ORIGIN holds. *)
Theorem allowed_origins_are_trimmed (corsOrigin : option string) (o : string) :
  In o (allowedOrigins corsOrigin) ->
  (forall c rest, o = String c rest -> isSpace c = false) /\
  (forall pre c, o = (pre ++ String c EmptyString)%string ->
                 isSpace c = false).
Proof.
  intros Hin.
  assert (Htrim : exists s, o = trim s).
  { destruct corsOrigin as [[|c rest]|]; simpl in Hin.
    - destruct Hin as [<-|[]]. exists "http://localhost:3000". reflexivity.
    - apply in_map_iff in Hin as [s [<- _]]. exists s. reflexivity.
    - destruct Hin as [<-|[]]. exists "http://localhost:3000". reflexivity. }
  destruct Htrim as [s ->]. split.
  - intros c rest H. apply (trim_head s c rest). exact H.
  - intros pre c H. apply (trim_last s pre c). exact H.
Qed.

Lemma allowed_origins_trimmed_witness :
  In "https://app.example"
     (allowedOrigins (Some "  https://app.example , https://www.example")) /\
  isSpace "h" = false /\ isSpace "e" = false.
Proof.
  destruct (allowed_origins_are_trimmed
              (Some "  https://app.example , https://www.example")
              "https://app.example") as [Hhead Hlast].
  - vm_compute. left. reflexivity.
  - split; [vm_compute; left; reflexivity|]. split.
    + apply (Hhead "h"%char "ttps://app.example"). reflexivity.
    + apply (Hlast "https://app.exampl" "e"%char). reflexivity.
Defined.



(** X13: a non-empty CORS_ORIGIN yields one allowed origin more than it has
    commas: an empty segment, as a doubled or trailing comma leaves, is
    kept as an entry of its own. *)
Theorem allowed_origins_count (s : string) :
  s <> EmptyString ->
  length (allowedOrigins (Some s)) = S (Js.occurrences "," s).
Proof.
  intros Hset. rewrite (allowedOrigins_set s Hset), length_map.
  apply length_split.
Qed.

Lemma allowed_origins_count_witness :
  length (allowedOrigins (Some "https://app.example,,https://www.example,"))
  = 4%nat.
Proof.
  apply (allowed_origins_count "https://app.example,,https://www.example,").
  discriminate.
Defined.

End CorsProps.

(** ** The shape of an error response, and the start-up banner *)

Module ErrorShapeProps.
Import Http ErrorTranslator.


(** X15: the environment the banner announces is 'development' exactly
    when NODE_ENV is unset, empty or 'development', while the error handler
    shows details only for 'development': with NODE_ENV unset or empty the
    server announces development and no response carries [details]. *)
Theorem announced_environment (envPort nodeEnv envUrl : option string) :
  In ("Environment: " ++ Startup.environment nodeEnv)%string
     (Startup.banner envPort nodeEnv envUrl) /\
  (Startup.environment nodeEnv = "development" <->
     nodeEnv = None \/ nodeEnv = Some EmptyString \/
     nodeEnv = Some "development") /\
  (isDevelopment nodeEnv = true ->
     Startup.environment nodeEnv = "development") /\
  (nodeEnv = None \/ nodeEnv = Some EmptyString ->
     forall e, field "details" (snd (errorHandler nodeEnv e)) = None).
Proof.
  split; [right; left; reflexivity|]. split; [|split].
  - unfold Startup.environment, Js.orElse.
    destruct nodeEnv as [[|c rest]|]; split; intros H; try tauto.
    + right. right. rewrite H. reflexivity.
    + destruct H as [H|[H|H]]; try discriminate. congruence.
  - intros H. apply ErrorTranslatorProps.isDevelopment_iff in H. subst nodeEnv.
    reflexivity.
  - intros Hunset e.
    assert (Hdev : isDevelopment nodeEnv = false)
      by (destruct Hunset as [->| ->]; reflexivity).
    rewrite ErrorTranslatorProps.handler_by_class.
    destruct (classify e); try reflexivity.
    + destruct (Failure.message e); reflexivity.
    + rewrite Hdev. reflexivity.
Qed.

End ErrorShapeProps.

(** [multer]'s failures, as the error handler answers them *)

Module UploadErrorProps.
Import Http Upload ErrorTranslator.



End UploadErrorProps.

(** ** Sample requests through the application *)

Module Scenarios.
Import Http Express Stack Samples.

Lemma preflight_witness :
  status (response (server None None ∅
            {| method := OPTIONS; path := "/api/upload"; origin := None;
               ip := "203.0.113.7"; time := 0; contentType := NoBody;
               bodyLength := 0; bodyError := None |})) = 204.
Proof.
  destruct (StackProps.preflight_answered_by_cors None None helmet extra
              (Limiter.limiterOf limits 429 tooMany RateLimit.General)
              (Limiter.limiterOf limits 429 tooMany RateLimit.UploadClass)
              (Limiter.limiterOf limits 429 tooMany RateLimit.HeavyApi)
              routes iso ∅
              {| method := OPTIONS; path := "/api/upload"; origin := None;
                 ip := "203.0.113.7"; time := 0; contentType := NoBody;
                 bodyLength := 0; bodyError := None |}) as [Hstatus _].
  - reflexivity.
  - reflexivity.
  - exact Hstatus.
Defined.



Lemma post_health_witness :
  status (response (server None None ∅ (postJson "/api/health" 2))) = 404.
Proof.
  destruct (StackProps.liveness_other_methods_not_found None None helmet extra
              (Limiter.limiterOf limits 429 tooMany RateLimit.General)
              (Limiter.limiterOf limits 429 tooMany RateLimit.UploadClass)
              (Limiter.limiterOf limits 429 tooMany RateLimit.HeavyApi)
              routes iso ∅
              (postJson "/api/health" 2)) as [Hstatus _].
  - reflexivity.
  - discriminate.
  - reflexivity.
  - left. vm_compute. reflexivity.
  - intros _. vm_compute. reflexivity.
  - intros _. vm_compute. reflexivity.
  - exact Hstatus.
Defined.


Lemma body_failure_witness :
  status (response (server None None ∅
            (postJson "/api/share" (10 * 1024 * 1024 + 1)))) = 500.
Proof.
  destruct (StackProps.body_failure_translated None None helmet extra
              (Limiter.limiterOf limits 429 tooMany RateLimit.General)
              (Limiter.limiterOf limits 429 tooMany RateLimit.UploadClass)
              (Limiter.limiterOf limits 429 tooMany RateLimit.HeavyApi)
              routes iso ∅
              (postJson "/api/share" (10 * 1024 * 1024 + 1))
              BodyParser.entityTooLarge) as [_ [_ [_ [_ [Hstatus _]]]]].
  - vm_compute. do 4 right. left. reflexivity.
  - left. reflexivity.
  - vm_compute. reflexivity.
  - exact (Hstatus eq_refl).
Defined.

Lemma outside_api_witness :
  response (server None None ∅ (get "/" None)) =
  response (server None None
              (snd (Limiter.limiterOf limits 429 tooMany RateLimit.General ∅
                      (get "/api/health" None)))
              (get "/" None)).
Proof.
  destruct (StackProps.outside_api_never_limited None None helmet extra
              (Limiter.limiterOf limits 429 tooMany RateLimit.General)
              (Limiter.limiterOf limits 429 tooMany RateLimit.UploadClass)
              (Limiter.limiterOf limits 429 tooMany RateLimit.HeavyApi)
              routes iso ∅
              (snd (Limiter.limiterOf limits 429 tooMany RateLimit.General ∅
                      (get "/api/health" None)))
              (get "/" None)) as [_ [_ [Hresponse _]]].
  - vm_compute. reflexivity.
  - exact Hresponse.
Defined.

End Scenarios.
